(** * flashbrain: the adaptive flashcard scheduler

    A shallow embedding of [flashbrain.py]: the [Question] and [History]
    records, the priority score [compute_priority], the selection
    [select_next_question], and the two line-delimited JSON stores behind
    [load_questions], [load_history] and [record_result].

    Numbers.  A Python [int] is a [Z].  A Python [float] is read as the real
    number it denotes, so [math.exp] and [math.log] are [exp] and [ln] on
    [R]: rounding, infinities and NaN are not part of this model. *)

From Stdlib Require Import Reals.Reals Lra Lia ZArith List String Ascii Bool.
From Stdlib Require Import Sorting.Permutation Sorting.Sorted.
Import ListNotations.

Set Warnings "-register-all".

Open Scope string_scope.
Open Scope R_scope.

(** ** Values read from a JSON line *)

(** What [json.loads] can return.  A JSON object is a Python [dict]; it is
    kept as the list of its items. *)
Inductive JSON : Type :=
| JNull
| JBool (b : bool)
| JInt (z : Z)
| JFloat (r : R)
| JStr (s : string)
| JArr (items : list JSON)
| JObj (items : list (string * JSON)).

(** ** Data models *)

Record Question : Type := mkQuestion {
  id : string;
  type : string;
  tags : list string;
  payload : JSON
}.

(** [question_id] holds whatever value the log line carried under that key:
    [History.from_dict] stores it without conversion.  The scorer only ever
    compares it with a question's [id], a [str]. *)
Record History : Type := mkHistory {
  question_id : JSON;
  attempts : Z;
  seconds : R;
  correct : bool;
  timestamp : R
}.

(** ** Scoring *)

(** [h.question_id == qid] for a [str] [qid]: a value that is not a string
    is equal to no string. *)
Definition qid_eqb (h : History) (qid : string) : bool :=
  match question_id h with
  | JStr s => String.eqb s qid
  | _ => false
  end.

(** [[h for h in history if h.question_id == qid]] *)
Definition matching (history : list History) (qid : string) : list History :=
  filter (fun h => qid_eqb h qid) history.

(** The loop of the builtin [max(iterable, key=...)]: the running maximum is
    replaced only by an item whose key is strictly greater, so the first of
    several maximal items is the one returned. *)
Fixpoint max_by_timestamp (best : History) (rest : list History) : History :=
  match rest with
  | [] => best
  | h :: rest' =>
      if Rlt_dec (timestamp best) (timestamp h)
      then max_by_timestamp h rest'
      else max_by_timestamp best rest'
  end.

Definition _last_seen (history : list History) (qid : string) : option History :=
  match matching history qid with
  | [] => None
  | h :: filtered => Some (max_by_timestamp h filtered)
  end.

(** ["tricky" in question.tags] *)
Definition is_tricky (q : Question) : bool :=
  existsb (String.eqb "tricky") (tags q).

Definition tricky_bonus (q : Question) : R :=
  if is_tricky q then 0.25 else 0.

(** [sum(h.attempts for h in history if h.question_id == question.id)] *)
Definition attempts_sum (history : list History) (qid : string) : Z :=
  fold_left (fun acc h => if qid_eqb h qid then (acc + attempts h)%Z else acc)
            history 0%Z.

(** [sum(1 for h in history if h.question_id == question.id and not h.correct)] *)
Definition incorrect_sum (history : list History) (qid : string) : Z :=
  fold_left (fun acc h =>
               if qid_eqb h qid && negb (correct h) then (acc + 1)%Z else acc)
            history 0%Z.

Definition miss_factor (attempts incorrect : Z) : R :=
  1 + IZR incorrect * 1.2 + IZR (Z.max 0 (attempts - incorrect)) * 0.2.

Definition slow_penalty (last : History) : R :=
  Rmin 1.5 (seconds last / 4).

Definition hours_since (now : R) (last : History) : R :=
  (now - timestamp last) / 3600.

Definition decay (hours : R) : R :=
  exp (hours * ln 0.5 / 18).

Definition compute_priority (question : Question) (history : list History)
                            (now : R) : R :=
  let last := _last_seen history (id question) in
  let tricky_bonus := tricky_bonus question in
  match last with
  | None => 5 + tricky_bonus
  | Some last =>
      let attempts := attempts_sum history (id question) in
      let incorrect := incorrect_sum history (id question) in
      let miss_factor := miss_factor attempts incorrect in
      let slow_penalty := slow_penalty last in
      let hours_since := hours_since now last in
      let decay := decay hours_since in
      (1 + tricky_bonus + slow_penalty) * miss_factor * (1 - decay)
  end.

(** ** Selection *)

Inductive exn : Type :=
| FileNotFoundError
| JSONDecodeError
| KeyError (key : string)
| TypeError
| ValueError
| AttributeError
| IndexError.

(** The outcome of a call: a value, a raised exception, or [IllTyped]: the
    call would build a [Question] whose [id], [type] or [tags] is not of the
    annotated type.  Python builds that object without complaint; the typed
    records of this model cannot hold it, and the model says nothing more
    about such a bank. *)
Inductive result (A : Type) : Type :=
| Ok (a : A)
| Raise (e : exn)
| IllTyped.
Arguments Ok {A} a.
Arguments Raise {A} e.
Arguments IllTyped {A}.

Definition bind {A B : Type} (r : result A) (k : A -> result B) : result B :=
  match r with
  | Ok a => k a
  | Raise e => Raise e
  | IllTyped => IllTyped
  end.

Notation "x <- r ;; k" := (bind r (fun x => k))
  (at level 61, r at next level, right associativity).

(** [list.sort(key=lambda x: x[0], reverse=True)].  Python's sort is stable,
    and stays so with [reverse=True]: items with equal keys keep their
    relative order.  It is modelled as the stable insertion sort by
    descending key: an item is put in front of the first item whose key is
    not strictly greater than its own. *)
Fixpoint insert_desc (x : R * Question) (sorted : list (R * Question))
  : list (R * Question) :=
  match sorted with
  | [] => [x]
  | y :: sorted' =>
      if Rlt_dec (fst x) (fst y)
      then y :: insert_desc x sorted'
      else x :: y :: sorted'
  end.

Fixpoint sort_desc (l : list (R * Question)) : list (R * Question) :=
  match l with
  | [] => []
  | x :: l' => insert_desc x (sort_desc l')
  end.

(** [now] is the one reading of [time.time()] taken at the start of the
    call.  [scored[0]] on an empty list raises [IndexError]. *)
Definition select_next_question (questions : list Question)
                                (history : list History) (now : R)
  : result Question :=
  let scored := map (fun q => (compute_priority q history now, q)) questions in
  match sort_desc scored with
  | [] => Raise IndexError
  | top :: _ => Ok (snd top)
  end.

(** ** The runtime the stores rely on *)

(** Library functions the module calls but does not define.  [json_loads]
    answers [None] where [json.loads] raises [JSONDecodeError];
    [int_of_str] and [float_of_str] are [int(s)] and [float(s)] on a [str],
    [None] standing for their [ValueError]. *)
Class Runtime : Type := {
  json_loads : string -> option JSON;
  json_dumps : JSON -> string;
  str_strip : string -> string;
  int_of_str : string -> option Z;
  float_of_str : string -> option R
}.

(** ** Dictionaries and conversions *)

Fixpoint lookup (key : string) (items : list (string * JSON)) : option JSON :=
  match items with
  | [] => None
  | (k, v) :: items' => if String.eqb k key then Some v else lookup key items'
  end.

(** [raw[key]] *)
Definition getitem (raw : JSON) (key : string) : result JSON :=
  match raw with
  | JObj items =>
      match lookup key items with
      | Some v => Ok v
      | None => Raise (KeyError key)
      end
  | _ => Raise TypeError
  end.

(** [raw.get(key, default)] *)
Definition get (raw : JSON) (key : string) (default : JSON) : result JSON :=
  match raw with
  | JObj items =>
      match lookup key items with
      | Some v => Ok v
      | None => Ok default
      end
  | _ => Raise AttributeError
  end.

(** Truncation towards zero, as [int(x)] does on a [float]. *)
Definition trunc (r : R) : Z :=
  if Rle_dec 0 r then Int_part r else (- Int_part (- r))%Z.

Definition py_int {rt : Runtime} (v : JSON) : result Z :=
  match v with
  | JBool b => Ok (if b then 1 else 0)%Z
  | JInt z => Ok z
  | JFloat r => Ok (trunc r)
  | JStr s =>
      match int_of_str s with
      | Some z => Ok z
      | None => Raise ValueError
      end
  | JNull | JArr _ | JObj _ => Raise TypeError
  end.

Definition py_float {rt : Runtime} (v : JSON) : result R :=
  match v with
  | JBool b => Ok (if b then 1 else 0)
  | JInt z => Ok (IZR z)
  | JFloat r => Ok r
  | JStr s =>
      match float_of_str s with
      | Some r => Ok r
      | None => Raise ValueError
      end
  | JNull | JArr _ | JObj _ => Raise TypeError
  end.

Definition py_bool (v : JSON) : bool :=
  match v with
  | JNull => false
  | JBool b => b
  | JInt z => negb (Z.eqb z 0)
  | JFloat r => if Req_dec_T r 0 then false else true
  | JStr s => negb (String.eqb s "")
  | JArr items => match items with [] => false | _ => true end
  | JObj items => match items with [] => false | _ => true end
  end.

(** The casts of [Question]'s unconverted fields to their annotated types. *)
Definition as_str (v : JSON) : result string :=
  match v with
  | JStr s => Ok s
  | _ => IllTyped
  end.

Fixpoint as_str_list_items (items : list JSON) : result (list string) :=
  match items with
  | [] => Ok []
  | v :: items' =>
      s <- as_str v ;;
      ss <- as_str_list_items items' ;;
      Ok (s :: ss)
  end.

Definition as_str_list (v : JSON) : result (list string) :=
  match v with
  | JArr items => as_str_list_items items
  | _ => IllTyped
  end.

(** [Question.from_dict] *)
Definition Question_from_dict (raw : JSON) : result Question :=
  id <- getitem raw "id" ;;
  type <- getitem raw "type" ;;
  tags <- get raw "tags" (JArr []) ;;
  id <- as_str id ;;
  type <- as_str type ;;
  tags <- as_str_list tags ;;
  Ok (mkQuestion id type tags raw).

(** [History.from_dict]; [now] is the value of the [time.time()] that is
    evaluated as the default of the [timestamp] lookup. *)
Definition History_from_dict {rt : Runtime} (now : R) (raw : JSON) : result History :=
  question_id <- getitem raw "question_id" ;;
  attempts <- (v <- get raw "attempts" (JInt 1) ;; py_int v) ;;
  seconds <- (v <- get raw "seconds" (JFloat 0) ;; py_float v) ;;
  correct <- (v <- get raw "correct" (JBool false) ;; Ok (py_bool v)) ;;
  timestamp <- (v <- get raw "timestamp" (JFloat now) ;; py_float v) ;;
  Ok (mkHistory question_id attempts seconds correct timestamp).

(** ** IO helpers *)

Definition Path : Type := string.

Definition QUESTION_BANK : Path := "question_bank.jsonl".
Definition PROGRESS_LOG : Path := "progress.jsonl".

(** The files the module touches: [None] where [path.exists()] is false,
    else the text of the file, as the text layer hands it to the program:
    decoded, every line end a newline character. *)
Definition FS : Type := Path -> option string.

Definition write_file (fs : FS) (path : Path) (text : string) : FS :=
  fun p => if String.eqb p path then Some text else fs p.

Definition newline : ascii := "010"%char.

(** [for line in f]: the text cut after each newline, the newline kept; a
    last line without one is yielded as it is. *)
Fixpoint readlines (text : string) : list string :=
  match text with
  | EmptyString => []
  | String c text' =>
      if Ascii.eqb c newline then String c EmptyString :: readlines text'
      else match readlines text' with
           | [] => [String c EmptyString]
           | line :: lines => String c line :: lines
           end
  end.

Definition is_empty (s : string) : bool :=
  match s with
  | EmptyString => true
  | _ => false
  end.

Fixpoint load_questions_lines {rt : Runtime} (lines : list string)
  : result (list Question) :=
  match lines with
  | [] => Ok []
  | line :: lines' =>
      let line := str_strip line in
      if is_empty line then load_questions_lines lines'
      else match json_loads line with
           | None => Raise JSONDecodeError
           | Some data =>
               q <- Question_from_dict data ;;
               questions <- load_questions_lines lines' ;;
               Ok (q :: questions)
           end
  end.

Definition load_questions {rt : Runtime} (fs : FS) (path : Path)
  : result (list Question) :=
  match fs path with
  | None => Raise FileNotFoundError
  | Some text => load_questions_lines (readlines text)
  end.

(** [clock k] is what the [k]-th call of [time.time()] during the load
    returns; [History.from_dict] makes one call for every record. *)
Fixpoint load_history_lines {rt : Runtime} (clock : nat -> R) (k : nat)
                            (lines : list string) : result (list History) :=
  match lines with
  | [] => Ok []
  | line :: lines' =>
      let line := str_strip line in
      if is_empty line then load_history_lines clock k lines'
      else match json_loads line with
           | None => Raise JSONDecodeError
           | Some raw =>
               h <- History_from_dict (clock k) raw ;;
               records <- load_history_lines clock (S k) lines' ;;
               Ok (h :: records)
           end
  end.

Definition load_history {rt : Runtime} (fs : FS) (path : Path) (clock : nat -> R)
  : result (list History) :=
  match fs path with
  | None => Ok []
  | Some text => load_history_lines clock 0 (readlines text)
  end.

(** The dictionary [record_result] serialises. *)
Definition entry (question_id : string) (attempts : Z) (seconds : R)
                 (correct : bool) (now : R) : JSON :=
  JObj [("question_id", JStr question_id);
        ("attempts", JInt attempts);
        ("seconds", JFloat seconds);
        ("correct", JBool correct);
        ("timestamp", JFloat now)].

(** [path.open("a")] creates the file when it is absent and writes at the
    end of what is there. *)
Definition append_file (fs : FS) (path : Path) (text : string) : FS :=
  let old := match fs path with Some old => old | None => EmptyString end in
  write_file fs path (old ++ text).

(** [now] is the reading of [time.time()] put in the entry. *)
Definition record_result {rt : Runtime} (fs : FS) (question_id : string)
                         (attempts : Z) (seconds : R) (correct : bool)
                         (path : Path) (now : R) : FS :=
  append_file fs path
    (json_dumps (entry question_id attempts seconds correct now)
     ++ String newline EmptyString).

(** ** The words of the specification *)

(** The totals of the miss factor, said over the records that match a
    question: the sum of their [attempts], and how many of them are not
    [correct]. *)
Definition attempts_total (records : list History) : Z :=
  fold_right (fun h acc => (attempts h + acc)%Z) 0%Z records.

Definition incorrect_total (records : list History) : Z :=
  Z.of_nat (List.length (filter (fun h => negb (correct h)) records)).

(** [last] is a record of [history] that matches [qid] and whose timestamp
    no matching record exceeds. *)
Definition is_last_seen (history : list History) (qid : string) (last : History)
  : Prop :=
  In last history /\ question_id last = JStr qid /\
  forall h, In h history -> question_id h = JStr qid ->
            timestamp h <= timestamp last.

(** The score of a seen question as the specification writes it, from the
    records that match the question and the last of them. *)
Definition priority_formula (q : Question) (records : list History)
                            (last : History) (now : R) : R :=
  let tricky_bonus := if in_dec string_dec "tricky" (tags q) then 0.25 else 0 in
  let miss_factor :=
    1 + IZR (incorrect_total records) * 1.2
        + IZR (Z.max 0 (attempts_total records - incorrect_total records)) * 0.2 in
  let slow_penalty := Rmin 1.5 (seconds last / 4) in
  let decay := exp (((now - timestamp last) / 3600) * ln 0.5 / 18) in
  (1 + tricky_bonus + slow_penalty) * miss_factor * (1 - decay).

(** [q], at position [i] of [questions], has the largest score, and every
    question before position [i] has a strictly smaller one. *)
Definition first_maximum (questions : list Question) (score : Question -> R)
                         (i : nat) (q : Question) : Prop :=
  nth_error questions i = Some q /\
  (forall q', In q' questions -> score q' <= score q) /\
  (forall j q', (j < i)%nat -> nth_error questions j = Some q' ->
                score q' < score q).

(** The exceptions a malformed line can raise. *)
Definition format_error (e : exn) : bool :=
  match e with
  | JSONDecodeError | KeyError _ | TypeError | ValueError => true
  | FileNotFoundError | AttributeError | IndexError => false
  end.

(** The fields of a history record. *)
Definition history_fields : list string :=
  ["question_id"; "attempts"; "seconds"; "correct"; "timestamp"].

(** A line that is not valid structured data. *)
Definition invalid_line {rt : Runtime} (line : string) : Prop :=
  json_loads (str_strip line) = None.

(** A line that is an object and lacks one of the fields. *)
Definition incomplete_line {rt : Runtime} (line : string) : Prop :=
  exists items,
    json_loads (str_strip line) = Some (JObj items) /\
    exists key, In key history_fields /\ lookup key items = None.

(** A line that [load_history] does not accept: text is left after
    stripping, and it is not valid JSON, or not an object, or an object
    without the key [question_id]. *)
Definition rejected_line {rt : Runtime} (line : string) : Prop :=
  is_empty (str_strip line) = false /\
  match json_loads (str_strip line) with
  | None => True
  | Some (JObj items) => lookup "question_id" items = None
  | Some _ => True
  end.

(** ** Texts made of whole lines *)

Fixpoint has_newline (s : string) : bool :=
  match s with
  | EmptyString => false
  | String c s' => Ascii.eqb c newline || has_newline s'
  end.

(** The text is empty or its last character is a newline. *)
Fixpoint complete_lines (text : string) : bool :=
  match text with
  | EmptyString => true
  | String c text' =>
      match text' with
      | EmptyString => Ascii.eqb c newline
      | String _ _ => complete_lines text'
      end
  end.

(** The log of a path that holds only whole lines, or does not exist. *)
Definition whole_lines (fs : FS) (path : Path) : Prop :=
  forall text, fs path = Some text -> complete_lines text = true.

(** What the round trip asks of the runtime for an entry [e]: [json.dumps]
    writes it without a newline, and the line written, once stripped, is
    not empty and is read back by [json.loads] as [e]. *)
Definition reads_back {rt : Runtime} (e : JSON) : Prop :=
  has_newline (json_dumps e) = false /\
  is_empty (str_strip (json_dumps e ++ String newline EmptyString)) = false /\
  json_loads (str_strip (json_dumps e ++ String newline EmptyString)) = Some e.

(** The arguments of one call of [record_result] and the time of the call,
    the record the call stands for, and a run of calls on one log. *)
Record Outcome : Type := mkOutcome {
  o_question_id : string;
  o_attempts : Z;
  o_seconds : R;
  o_correct : bool;
  o_time : R
}.

Definition record_of (o : Outcome) : History :=
  mkHistory (JStr (o_question_id o)) (o_attempts o) (o_seconds o)
            (o_correct o) (o_time o).

Definition entry_of (o : Outcome) : JSON :=
  entry (o_question_id o) (o_attempts o) (o_seconds o) (o_correct o) (o_time o).

Fixpoint record_results {rt : Runtime} (fs : FS) (path : Path)
                        (calls : list Outcome) : FS :=
  match calls with
  | [] => fs
  | o :: calls' =>
      record_results
        (record_result fs (o_question_id o) (o_attempts o) (o_seconds o)
                       (o_correct o) path (o_time o))
        path calls'
  end.

(** ** A runtime for the examples *)

(** [str.strip()] on ASCII text. *)
Definition is_space (c : ascii) : bool :=
  let n := nat_of_ascii c in
  ((9 <=? n) && (n <=? 13) || (28 <=? n) && (n <=? 32))%nat.

Fixpoint lstrip (s : string) : string :=
  match s with
  | EmptyString => EmptyString
  | String c s' => if is_space c then lstrip s' else s
  end.

Fixpoint rstrip (s : string) : string :=
  match s with
  | EmptyString => EmptyString
  | String c s' =>
      let r := rstrip s' in
      if is_empty r && is_space c then EmptyString else String c r
  end.

Definition ascii_strip (s : string) : string := rstrip (lstrip s).

Fixpoint table_loads (table : list (string * JSON)) (s : string) : option JSON :=
  match table with
  | [] => None
  | (text, v) :: table' => if String.eqb text s then Some v else table_loads table' s
  end.

Definition quoted (s : string) : string :=
  String "034"%char (s ++ String "034"%char EmptyString).

(** The line of a record that carries its [question_id] only. *)
Definition bare_line : string :=
  "{" ++ quoted "question_id" ++ ": " ++ quoted "q1" ++ "}".

(** The line of the record [("q1", 2, 4.0, True)] written at time 100. *)
Definition full_line : string :=
  "{" ++ quoted "question_id" ++ ": " ++ quoted "q1"
      ++ ", " ++ quoted "attempts" ++ ": 2"
      ++ ", " ++ quoted "seconds" ++ ": 4.0"
      ++ ", " ++ quoted "correct" ++ ": true"
      ++ ", " ++ quoted "timestamp" ++ ": 100.0}".

(** [json.loads] is given on the two lines above and rejects every other
    text; [json.dumps] gives the text of the one entry the examples write. *)
Definition example_runtime : Runtime := {|
  json_loads := table_loads
    [(bare_line, JObj [("question_id", JStr "q1")]);
     (full_line, entry "q1" 2 4 true 100)];
  json_dumps := fun _ => full_line;
  str_strip := ascii_strip;
  int_of_str := fun _ => None;
  float_of_str := fun _ => None
|}.

Definition no_files : FS := fun _ => None.

(** A log whose text is a blank line and the line of the bare record. *)
Definition bare_text : string :=
  String newline EmptyString ++ bare_line ++ String newline EmptyString.

Definition bare_fs : FS := write_file no_files PROGRESS_LOG bare_text.

(** A log with one line that is not JSON. *)
Definition broken_fs : FS :=
  write_file no_files PROGRESS_LOG ("oops" ++ String newline EmptyString).

(** ** A bank and histories for the examples *)

Definition q1 : Question :=
  mkQuestion "q1" "hear_pick" ["tricky"]
    (JObj [("id", JStr "q1"); ("type", JStr "hear_pick");
           ("tags", JArr [JStr "tricky"])]).

Definition q2 : Question :=
  mkQuestion "q2" "hear_pick" []
    (JObj [("id", JStr "q2"); ("type", JStr "hear_pick"); ("tags", JArr [])]).

Definition q3 : Question :=
  mkQuestion "q3" "hear_pick" []
    (JObj [("id", JStr "q3"); ("type", JStr "hear_pick")]).

Definition bank : list Question := [q1; q2].

(** One wrong answer to [q2] in two attempts and four seconds, at time 0. *)
Definition missed_q2 : History := mkHistory (JStr "q2") 2 4 false 0.

(** The same presentation answered right. *)
Definition passed_q2 : History := mkHistory (JStr "q2") 2 4 true 0.

(** A record of a question that is not in the bank. *)
Definition orphan : History := mkHistory (JStr "q9") 7 9 false 50.

(** Eighteen hours, in seconds. *)
Definition eighteen_hours : R := 18 * 3600.

(** ** The command line *)

(** [main]: the bank is loaded, then the history, then the choice is made.
    The call prints the serialised payload of the choice; the model returns
    that payload.  [clock] gives the readings of [time.time()] during the
    load of the history and [now] the one taken by the selection. *)
Definition main {rt : Runtime} (fs : FS) (clock : nat -> R) (now : R)
  : result JSON :=
  questions <- load_questions fs QUESTION_BANK ;;
  history <- load_history fs PROGRESS_LOG clock ;;
  choice <- select_next_question questions history now ;;
  Ok (payload choice).

(** The stripped lines of a text that are not empty: the ones a loader
    hands to [json.loads]. *)
Definition stripped_lines {rt : Runtime} (lines : list string) : list string :=
  filter (fun line => negb (is_empty line)) (map str_strip lines).

(** A line that [load_questions] does not accept: text is left after
    stripping, and it is not valid JSON, or not an object, or an object
    without [id] or without [type]. *)
Definition rejected_bank_line {rt : Runtime} (line : string) : Prop :=
  is_empty (str_strip line) = false /\
  match json_loads (str_strip line) with
  | None => True
  | Some (JObj items) => lookup "id" items = None \/ lookup "type" items = None
  | Some _ => True
  end.

(** ** The bank generator: [createQuestionBank.py] *)

(** One tone of a syllable in the index: for every speaker the audio
    dictionary, or [None]. *)
Definition Bucket : Type := list (string * JSON).

(** The index entry of a syllable: its bucket for every tone. *)
Definition IndexEntry : Type := list (string * Bucket).

Fixpoint lookup_bucket (tone : string) (entry : IndexEntry) : option Bucket :=
  match entry with
  | [] => None
  | (k, bucket) :: entry' =>
      if String.eqb k tone then Some bucket else lookup_bucket tone entry'
  end.

(** The first loop of [pick_audio]: the speakers are tried in order. *)
Fixpoint pick_by_speaker (tone_bucket : Bucket) (speaker_order : list string)
  : option JSON :=
  match speaker_order with
  | [] => None
  | sp :: speaker_order' =>
      match lookup sp tone_bucket with
      | Some val =>
          if py_bool val then Some val
          else pick_by_speaker tone_bucket speaker_order'
      | None => pick_by_speaker tone_bucket speaker_order'
      end
  end.

(** The second loop: any value of the bucket that is true. *)
Fixpoint pick_any (values : list JSON) : option JSON :=
  match values with
  | [] => None
  | val :: values' => if py_bool val then Some val else pick_any values'
  end.

Definition pick_audio (entry : IndexEntry) (tone : string)
                      (speaker_order : list string) : option JSON :=
  let tone_bucket :=
    match lookup_bucket tone entry with Some b => b | None => [] end in
  match pick_by_speaker tone_bucket speaker_order with
  | Some val => Some val
  | None => pick_any (map snd tone_bucket)
  end.

(** [write_jsonl]: the file is opened for writing, which empties it, and
    every item is written on a line.  [dumps] is [json.dumps] with
    [ensure_ascii=False]. *)
Fixpoint jsonl_text (dumps : JSON -> string) (items : list JSON) : string :=
  match items with
  | [] => EmptyString
  | obj :: items' =>
      (dumps obj ++ String newline EmptyString) ++ jsonl_text dumps items'
  end.

Definition write_jsonl (dumps : JSON -> string) (fs : FS) (path : Path)
                       (items : list JSON) : FS :=
  write_file fs path (jsonl_text dumps items).

Definition COMMON_PATH : Path := "mostCommonSyllables.txt".

(** [raw.replace(newline, ",")] *)
Fixpoint replace_newlines (raw : string) : string :=
  match raw with
  | EmptyString => EmptyString
  | String c raw' =>
      String (if Ascii.eqb c newline then ","%char else c) (replace_newlines raw')
  end.

(** [s.split(",")]: the pieces between the commas, the empty ones too; the
    empty text gives one empty piece. *)
Fixpoint split_commas (s : string) : list string :=
  match s with
  | EmptyString => [EmptyString]
  | String c s' =>
      if Ascii.eqb c ","%char then EmptyString :: split_commas s'
      else match split_commas s' with
           | [] => [String c EmptyString]
           | part :: parts => String c part :: parts
           end
  end.

(** The loop of [load_common]: a part is kept when it is not empty and has
    not been kept before. *)
Definition keep_new (seen : list string) (p : string) : list string :=
  if negb (is_empty p) && negb (existsb (String.eqb p) seen)
  then (seen ++ [p])%list
  else seen.

(** [load_common]; [lower] is [str.lower].  [read_text] raises
    [FileNotFoundError] on a file that does not exist. *)
Definition load_common {rt : Runtime} (lower : string -> string) (fs : FS)
  : result (list string) :=
  match fs COMMON_PATH with
  | None => Raise FileNotFoundError
  | Some raw =>
      let parts :=
        map (fun p => lower (str_strip p)) (split_commas (replace_newlines raw)) in
      Ok (fold_left keep_new parts [])
  end.

(** ** The index builder: [createFlash.py] *)

Definition initials : list string :=
  ["zh"; "ch"; "sh"; "b"; "p"; "m"; "f"; "d"; "t"; "n"; "l"; "g"; "k"; "h";
   "j"; "q"; "x"; "r"; "z"; "c"; "s"; "y"; "w"].

(** [s[n:]] *)
Fixpoint skip (n : nat) (s : string) : string :=
  match n, s with
  | O, _ => s
  | S n', String _ s' => skip n' s'
  | S _, EmptyString => EmptyString
  end.

(** The loop of [split_initial_final] over the list of initials. *)
Fixpoint split_with (inits : list string) (syllable : string) : string * string :=
  match inits with
  | [] => (EmptyString, syllable)
  | init :: inits' =>
      if String.prefix init syllable
      then (init, skip (String.length init) syllable)
      else split_with inits' syllable
  end.

Definition split_initial_final (syllable : string) : string * string :=
  split_with initials syllable.

(** ** More data for the examples *)

Definition q1_line : string :=
  "{" ++ quoted "id" ++ ": " ++ quoted "q1"
      ++ ", " ++ quoted "type" ++ ": " ++ quoted "hear_pick"
      ++ ", " ++ quoted "tags" ++ ": [" ++ quoted "tricky" ++ "]}".

Definition q2_line : string :=
  "{" ++ quoted "id" ++ ": " ++ quoted "q2"
      ++ ", " ++ quoted "type" ++ ": " ++ quoted "hear_pick"
      ++ ", " ++ quoted "tags" ++ ": []}".

(** A line that is an object without [id]. *)
Definition no_id_line : string :=
  "{" ++ quoted "type" ++ ": " ++ quoted "hear_pick" ++ "}".

(** [json.loads] on the lines of the examples, bank and log. *)
Definition bank_runtime : Runtime := {|
  json_loads := table_loads
    [(q1_line, payload q1);
     (q2_line, payload q2);
     (no_id_line, JObj [("type", JStr "hear_pick")]);
     (bare_line, JObj [("question_id", JStr "q1")]);
     (full_line, entry "q1" 2 4 true 100)];
  json_dumps := fun _ => full_line;
  str_strip := ascii_strip;
  int_of_str := fun _ => None;
  float_of_str := fun _ => None
|}.

(** [json.dumps] on the payloads of [q1] and [q2]. *)
Definition bank_dumps (v : JSON) : string :=
  match v with
  | JObj (("id", JStr "q1") :: _) => q1_line
  | _ => q2_line
  end.

(** The bank file of [q2] and [q1], a blank line between them. *)
Definition bank_text : string :=
  q2_line ++ String newline (String newline EmptyString)
          ++ q1_line ++ String newline EmptyString.

Definition bank_fs : FS := write_file no_files QUESTION_BANK bank_text.

(** The recording of a tone by one speaker. *)
Definition audio_of (speaker : string) : JSON :=
  JObj [("audio", JStr speaker)].

(** The entry of a syllable whose first tone has no recording by FV1. *)
Definition ma_entry : IndexEntry :=
  [("1", [("FV1", JNull); ("FV2", audio_of "FV2"); ("MV1", audio_of "MV1")]);
   ("2", [("FV1", JNull)])].

(** The miss of [q2] answered in nine seconds, and the miss of [q2] after
    five attempts. *)
Definition slow_q2 : History := mkHistory (JStr "q2") 2 9 false 0.
Definition retried_q2 : History := mkHistory (JStr "q2") 5 4 false 0.

(** [q2] answered right at the first attempt. *)
Definition first_try_q2 : History := mkHistory (JStr "q2") 1 4 true 0.

(** A bank whose second line has no [id]. *)
Definition bad_bank_fs : FS :=
  write_file no_files QUESTION_BANK
    (q2_line ++ String newline EmptyString
             ++ no_id_line ++ String newline EmptyString).

(** [str.lower] on ASCII text. *)
Definition ascii_lower_char (c : ascii) : ascii :=
  let n := nat_of_ascii c in
  if ((65 <=? n) && (n <=? 90))%nat then ascii_of_nat (n + 32) else c.

Fixpoint ascii_lower (s : string) : string :=
  match s with
  | EmptyString => EmptyString
  | String c s' => String (ascii_lower_char c) (ascii_lower s')
  end.

(** A file of common syllables with a repeated one and an empty part. *)
Definition common_fs : FS :=
  write_file no_files COMMON_PATH
    ("ma, Ba" ++ String newline "ba,,mi").

(** * Properties of the scorer *)

(** ** Matching records and the last one *)

Lemma qid_eqb_true (h : History) (qid : string) :
  qid_eqb h qid = true <-> question_id h = JStr qid.
Proof.
  unfold qid_eqb.
  destruct (question_id h) as [| | | |s| |]; split; intro E;
    try discriminate E; try reflexivity.
  - apply String.eqb_eq in E. now subst.
  - injection E as ->. apply String.eqb_refl.
Qed.

Lemma In_matching (history : list History) (qid : string) (h : History) :
  In h (matching history qid) <-> In h history /\ question_id h = JStr qid.
Proof.
  unfold matching. rewrite filter_In, qid_eqb_true. reflexivity.
Qed.

Lemma matching_nil (history : list History) (qid : string) :
  (forall h, In h history -> question_id h <> JStr qid) ->
  matching history qid = [].
Proof.
  intro Hno.
  destruct (matching history qid) as [|h ms] eqn:E; [reflexivity|].
  assert (Hin : In h (matching history qid)) by (rewrite E; now left).
  apply In_matching in Hin. destruct Hin as [Hin Hq].
  now destruct (Hno h Hin).
Qed.

Lemma max_by_timestamp_In (rest : list History) :
  forall best, In (max_by_timestamp best rest) (best :: rest).
Proof.
  induction rest as [|h rest IH]; intro best; simpl.
  - now left.
  - destruct (Rlt_dec (timestamp best) (timestamp h)).
    + right. apply IH.
    + destruct (IH best) as [E | Hin]; [now left | now right; right].
Qed.

Lemma max_by_timestamp_ge (rest : list History) :
  forall best h, In h (best :: rest) ->
    timestamp h <= timestamp (max_by_timestamp best rest).
Proof.
  induction rest as [|x rest IH]; intros best h Hin; simpl.
  - destruct Hin as [<- | []]. lra.
  - destruct (Rlt_dec (timestamp best) (timestamp x)) as [Hlt | Hge].
    + destruct Hin as [<- | Hin].
      * apply Rle_trans with (timestamp x); [lra|]. apply IH. now left.
      * apply IH. exact Hin.
    + destruct Hin as [<- | [<- | Hin]].
      * apply IH. now left.
      * apply Rle_trans with (timestamp best); [lra|]. apply IH. now left.
      * apply IH. now right.
Qed.

Lemma _last_seen_Some (history : list History) (qid : string) (last : History) :
  _last_seen history qid = Some last ->
  In last (matching history qid) /\
  forall h, In h (matching history qid) -> timestamp h <= timestamp last.
Proof.
  unfold _last_seen.
  destruct (matching history qid) as [|m ms]; [discriminate|].
  intro E. injection E as <-. split.
  - apply max_by_timestamp_In.
  - intros h Hin. now apply max_by_timestamp_ge.
Qed.

Lemma _last_seen_seen (history : list History) (qid : string) :
  (exists h, In h history /\ question_id h = JStr qid) ->
  exists last, _last_seen history qid = Some last.
Proof.
  intros [h Hh]. apply In_matching in Hh. unfold _last_seen.
  destruct (matching history qid) as [|m ms]; [destruct Hh|].
  now eexists.
Qed.

Lemma _last_seen_unseen (history : list History) (qid : string) :
  (forall h, In h history -> question_id h <> JStr qid) ->
  _last_seen history qid = None.
Proof.
  intro Hno. unfold _last_seen. now rewrite (matching_nil _ _ Hno).
Qed.

Lemma is_tricky_In (q : Question) :
  is_tricky q = true <-> In "tricky" (tags q).
Proof.
  unfold is_tricky. rewrite existsb_exists. split.
  - intros [t [Hin E]]. apply String.eqb_eq in E. now subst.
  - intro Hin. exists "tricky". split; [exact Hin | apply String.eqb_refl].
Qed.

(** ** The two sums run over the matching records *)

Lemma attempts_sum_acc (history : list History) (qid : string) :
  forall acc,
    fold_left (fun acc h => if qid_eqb h qid then (acc + attempts h)%Z else acc)
              history acc
    = (acc + attempts_total (matching history qid))%Z.
Proof.
  induction history as [|h history IH]; intro acc; simpl.
  - lia.
  - rewrite IH. destruct (qid_eqb h qid); simpl; lia.
Qed.

Lemma attempts_sum_matching (history : list History) (qid : string) :
  attempts_sum history qid = attempts_total (matching history qid).
Proof. unfold attempts_sum. now rewrite attempts_sum_acc. Qed.

Lemma incorrect_sum_acc (history : list History) (qid : string) :
  forall acc,
    fold_left (fun acc h =>
                 if qid_eqb h qid && negb (correct h) then (acc + 1)%Z else acc)
              history acc
    = (acc + incorrect_total (matching history qid))%Z.
Proof.
  unfold incorrect_total.
  induction history as [|h history IH]; intro acc; simpl.
  - lia.
  - rewrite IH. destruct (qid_eqb h qid); simpl; [|lia].
    destruct (correct h); simpl; lia.
Qed.

Lemma incorrect_sum_matching (history : list History) (qid : string) :
  incorrect_sum history qid = incorrect_total (matching history qid).
Proof. unfold incorrect_sum. now rewrite incorrect_sum_acc. Qed.

Lemma incorrect_total_nonneg (records : list History) :
  (0 <= incorrect_total records)%Z.
Proof. unfold incorrect_total. lia. Qed.

(** ** The formula *)

(** C2.  A question with at least one matching record scores
    [(1 + tricky_bonus + slow_penalty) * miss_factor * (1 - decay)]: the
    bonus is 0.25 exactly when "tricky" is among the tags, the miss factor
    is [1 + 1.2 * incorrect_total + 0.2 * max(0, attempts_total -
    incorrect_total)] over the matching records, and slow penalty and decay
    are taken from a matching record [last] of maximum timestamp. *)
Theorem compute_priority_seen (q : Question) (history : list History) (now : R) :
  (exists h, In h history /\ question_id h = JStr (id q)) ->
  exists last,
    is_last_seen history (id q) last /\
    compute_priority q history now
    = priority_formula q (matching history (id q)) last now.
Proof.
  intro Hseen.
  destruct (_last_seen_seen _ _ Hseen) as [last Hlast].
  destruct (_last_seen_Some _ _ _ Hlast) as [Hin Hmax].
  exists last. split.
  - apply In_matching in Hin. destruct Hin as [Hin Hq].
    repeat split; try assumption.
    intros h Hh Hhq. apply Hmax. now apply In_matching.
  - unfold compute_priority, priority_formula. rewrite Hlast. cbv zeta.
    unfold miss_factor, slow_penalty, decay, hours_since, tricky_bonus.
    rewrite attempts_sum_matching, incorrect_sum_matching.
    destruct (in_dec string_dec "tricky" (tags q)) as [Ht | Ht].
    + apply is_tricky_In in Ht. rewrite Ht. lra.
    + destruct (is_tricky q) eqn:E; [|lra].
      apply is_tricky_In in E. now destruct Ht.
Qed.

(** C3.  A question that no history record matches scores exactly 5.25
    when "tricky" is among its tags and exactly 5 otherwise, whatever [now]
    is. *)
Theorem compute_priority_unseen (q : Question) (history : list History) (now : R) :
  (forall h, In h history -> question_id h <> JStr (id q)) ->
  (In "tricky" (tags q) -> compute_priority q history now = 5 + 0.25) /\
  (~ In "tricky" (tags q) -> compute_priority q history now = 5).
Proof.
  intro Hno. unfold compute_priority, tricky_bonus.
  rewrite (_last_seen_unseen _ _ Hno). split; intro Ht.
  - apply is_tricky_In in Ht. now rewrite Ht.
  - destruct (is_tricky q) eqn:E.
    + apply is_tricky_In in E. now destruct Ht.
    + lra.
Qed.

(** C8.  When [now] is the largest timestamp among the records matching a
    seen question, its score is exactly 0. *)
Theorem compute_priority_just_seen (q : Question) (history : list History) (now : R) :
  (exists h, In h history /\ question_id h = JStr (id q) /\ timestamp h = now) ->
  (forall h, In h history -> question_id h = JStr (id q) -> timestamp h <= now) ->
  compute_priority q history now = 0.
Proof.
  intros [h [Hh [Hq Hts]]] Hmax.
  destruct (_last_seen_seen history (id q)) as [last Hlast]; [now exists h|].
  destruct (_last_seen_Some _ _ _ Hlast) as [Hin Hge].
  assert (Hnow : timestamp last = now).
  { apply Rle_antisym.
    - apply In_matching in Hin. now apply Hmax.
    - rewrite <- Hts. apply Hge. now apply In_matching. }
  unfold compute_priority. rewrite Hlast. cbv zeta.
  unfold decay, hours_since. rewrite Hnow.
  replace ((now - now) / 3600 * ln 0.5 / 18) with 0 by (field).
  rewrite exp_0. ring.
Qed.

(** ** Signs and monotonicity of the factors *)

Lemma ln_half_neg : ln 0.5 < 0.
Proof. rewrite <- ln_1. apply ln_increasing; lra. Qed.

Lemma decay_antitone (h1 h2 : R) : h1 <= h2 -> decay h2 <= decay h1.
Proof.
  intro Hle. unfold decay. pose proof ln_half_neg as Hln.
  destruct (Req_dec h1 h2) as [-> | Hne]; [lra|].
  left. apply exp_increasing. nra.
Qed.

Lemma decay_le_1 (h : R) : 0 <= h -> decay h <= 1.
Proof.
  intro Hh. replace 1 with (decay 0).
  - now apply decay_antitone.
  - unfold decay. replace (0 * ln 0.5 / 18) with 0 by field. apply exp_0.
Qed.

Lemma tricky_bonus_nonneg (q : Question) : 0 <= tricky_bonus q.
Proof. unfold tricky_bonus. destruct (is_tricky q); lra. Qed.

Lemma slow_penalty_nonneg (last : History) :
  0 <= seconds last -> 0 <= slow_penalty last.
Proof.
  intro Hs. unfold slow_penalty. apply Rmin_glb; lra.
Qed.

Lemma miss_factor_ge_1 (attempts incorrect : Z) :
  (0 <= incorrect)%Z -> 1 <= miss_factor attempts incorrect.
Proof.
  intro Hi. unfold miss_factor.
  apply IZR_le in Hi.
  assert (Hm : 0 <= IZR (Z.max 0 (attempts - incorrect))) by (apply IZR_le; lia).
  lra.
Qed.

Lemma miss_factor_mono (attempts i1 i2 : Z) :
  (i1 <= i2)%Z -> miss_factor attempts i1 <= miss_factor attempts i2.
Proof.
  intro Hle. unfold miss_factor.
  assert (Hz : (Z.max 0 (attempts - i1) <= Z.max 0 (attempts - i2) + (i2 - i1))%Z)
    by lia.
  apply IZR_le in Hz. rewrite plus_IZR, minus_IZR in Hz.
  apply IZR_le in Hle. lra.
Qed.

(** ** Monotonicity of the score *)

(** C6.  For a seen question whose last record has [seconds >= 0], the
    score does not decrease when [hours_since] grows while miss factor,
    slow penalty and tricky bonus stay the same: of two evaluations of the
    question that agree on these three, the one with the larger
    [hours_since] has the larger or equal score. *)
Theorem compute_priority_mono_hours (q : Question)
                                    (history1 history2 : list History)
                                    (last1 last2 : History) (now1 now2 : R) :
  _last_seen history1 (id q) = Some last1 ->
  _last_seen history2 (id q) = Some last2 ->
  miss_factor (attempts_sum history1 (id q)) (incorrect_sum history1 (id q))
  = miss_factor (attempts_sum history2 (id q)) (incorrect_sum history2 (id q)) ->
  slow_penalty last1 = slow_penalty last2 ->
  0 <= seconds last1 ->
  hours_since now1 last1 <= hours_since now2 last2 ->
  compute_priority q history1 now1 <= compute_priority q history2 now2.
Proof.
  intros Hl1 Hl2 Hmiss Hslow Hs Hh.
  unfold compute_priority. rewrite Hl1, Hl2. cbv zeta.
  rewrite <- Hmiss, <- Hslow.
  pose proof (decay_antitone _ _ Hh) as Hd.
  pose proof (tricky_bonus_nonneg q) as Hb.
  pose proof (slow_penalty_nonneg last1 Hs) as Hp.
  pose proof (miss_factor_ge_1 (attempts_sum history1 (id q))
                (incorrect_sum history1 (id q))) as Hm.
  rewrite incorrect_sum_matching in Hm.
  specialize (Hm (incorrect_total_nonneg _)).
  rewrite incorrect_sum_matching.
  apply Rmult_le_compat_l; [|lra].
  apply Rmult_le_pos; lra.
Qed.

(** C7.  For a seen question with [now >= last.timestamp] and
    [last.seconds >= 0]: of two histories with the same total of attempts
    and the same seconds and timestamp of the last record, the one with
    more incorrect matching records gives a score at least as large. *)
Theorem compute_priority_mono_incorrect (q : Question) (history1 history2 : list History)
                                        (last1 last2 : History) (now : R) :
  _last_seen history1 (id q) = Some last1 ->
  _last_seen history2 (id q) = Some last2 ->
  seconds last1 = seconds last2 ->
  timestamp last1 = timestamp last2 ->
  attempts_total (matching history1 (id q)) = attempts_total (matching history2 (id q)) ->
  (incorrect_total (matching history1 (id q))
   <= incorrect_total (matching history2 (id q)))%Z ->
  0 <= seconds last1 ->
  timestamp last1 <= now ->
  compute_priority q history1 now <= compute_priority q history2 now.
Proof.
  intros Hl1 Hl2 Hsec Hts Hatt Hinc Hs Hnow.
  unfold compute_priority. rewrite Hl1, Hl2. cbv zeta.
  rewrite !attempts_sum_matching, !incorrect_sum_matching, Hatt.
  unfold slow_penalty, hours_since. rewrite <- Hsec, <- Hts.
  fold (slow_penalty last1). fold (hours_since now last1).
  pose proof (tricky_bonus_nonneg q) as Hb.
  pose proof (slow_penalty_nonneg last1 Hs) as Hp.
  pose proof (miss_factor_mono (attempts_total (matching history2 (id q))) _ _ Hinc) as Hm.
  assert (Hd : decay (hours_since now last1) <= 1).
  { apply decay_le_1. unfold hours_since.
    apply Rmult_le_pos; [lra|]. left. apply Rinv_0_lt_compat. lra. }
  apply Rmult_le_compat_r; [lra|].
  apply Rmult_le_compat_l; lra.
Qed.

(** ** Only the matching records count *)

Lemma compute_priority_matching (q : Question) (history1 history2 : list History)
                                (now : R) :
  matching history1 (id q) = matching history2 (id q) ->
  compute_priority q history1 now = compute_priority q history2 now.
Proof.
  intro E. unfold compute_priority, _last_seen.
  rewrite !attempts_sum_matching, !incorrect_sum_matching, E. reflexivity.
Qed.

Lemma filter_filter_absorb {A : Type} (f keep : A -> bool) (l : list A) :
  (forall x, In x l -> keep x = false -> f x = false) ->
  filter f (filter keep l) = filter f l.
Proof.
  induction l as [|x l IH]; intro H; simpl; [reflexivity|].
  assert (IH' : filter f (filter keep l) = filter f l).
  { apply IH. intros y Hy. apply H. now right. }
  destruct (keep x) eqn:Ek; simpl.
  - now rewrite IH'.
  - rewrite (H x (or_introl eq_refl) Ek). exact IH'.
Qed.

Lemma select_next_question_ext (questions : list Question)
                               (history1 history2 : list History) (now : R) :
  (forall q, In q questions ->
     compute_priority q history1 now = compute_priority q history2 now) ->
  select_next_question questions history1 now
  = select_next_question questions history2 now.
Proof.
  intro H. unfold select_next_question.
  replace (map (fun q => (compute_priority q history1 now, q)) questions)
    with (map (fun q => (compute_priority q history2 now, q)) questions);
    [reflexivity|].
  apply map_ext_in. intros q Hq. now rewrite (H q Hq).
Qed.

(** C10.  The score of a question depends on the history only through the
    records whose [question_id] equals its [id]; so dropping from a history
    any records that match no question of the bank (or, read backwards,
    adding them) changes no score and not the question selected. *)
Theorem orphan_history_noninterference :
  (forall (q : Question) (history1 history2 : list History) (now : R),
     matching history1 (id q) = matching history2 (id q) ->
     compute_priority q history1 now = compute_priority q history2 now) /\
  (forall (questions : list Question) (history : list History)
          (keep : History -> bool) (now : R),
     (forall h, In h history -> keep h = false ->
        forall q, In q questions -> question_id h <> JStr (id q)) ->
     (forall q, In q questions ->
        compute_priority q (filter keep history) now
        = compute_priority q history now) /\
     select_next_question questions (filter keep history) now
     = select_next_question questions history now).
Proof.
  split; [exact compute_priority_matching|].
  intros questions history keep now Horphan.
  assert (Hscore : forall q, In q questions ->
            compute_priority q (filter keep history) now
            = compute_priority q history now).
  { intros q Hq. apply compute_priority_matching. unfold matching.
    apply filter_filter_absorb. intros h Hh Hk.
    destruct (qid_eqb h (id q)) eqn:E; [|reflexivity].
    apply qid_eqb_true in E. now destruct (Horphan h Hh Hk q Hq). }
  split; [exact Hscore|]. now apply select_next_question_ext.
Qed.

(** * Properties of the selection *)

Lemma insert_desc_not_nil (x : R * Question) (sorted : list (R * Question)) :
  insert_desc x sorted <> [].
Proof.
  destruct sorted as [|y sorted]; simpl; [discriminate|].
  destruct (Rlt_dec (fst x) (fst y)); discriminate.
Qed.

Lemma sort_desc_nil (l : list (R * Question)) : sort_desc l = [] <-> l = [].
Proof.
  split; [|now intros ->].
  destruct l as [|x l]; [reflexivity|]. simpl. intro E.
  now destruct (insert_desc_not_nil x (sort_desc l)).
Qed.

(** The model of [list.sort] does sort: the result is a rearrangement of
    the list, with keys in descending order. *)
Lemma insert_desc_perm (x : R * Question) (sorted : list (R * Question)) :
  Permutation (insert_desc x sorted) (x :: sorted).
Proof.
  induction sorted as [|y sorted IH]; simpl; [apply Permutation_refl|].
  destruct (Rlt_dec (fst x) (fst y)); [|apply Permutation_refl].
  apply perm_trans with (y :: x :: sorted);
    [now apply perm_skip | apply perm_swap].
Qed.

Lemma sort_desc_perm (l : list (R * Question)) : Permutation (sort_desc l) l.
Proof.
  induction l as [|x l IH]; simpl; [apply perm_nil|].
  apply perm_trans with (x :: sort_desc l);
    [apply insert_desc_perm | now apply perm_skip].
Qed.

Lemma insert_desc_sorted (x : R * Question) (sorted : list (R * Question)) :
  StronglySorted (fun a b => fst b <= fst a) sorted ->
  StronglySorted (fun a b => fst b <= fst a) (insert_desc x sorted).
Proof.
  induction 1 as [|y sorted Hs IH Hy]; simpl.
  - constructor; constructor.
  - destruct (Rlt_dec (fst x) (fst y)) as [Hlt | Hge].
    + constructor; [exact IH|].
      apply Forall_forall. intros z Hz.
      apply (Permutation_in _ (insert_desc_perm x sorted)) in Hz.
      destruct Hz as [<- | Hz]; [lra|].
      rewrite Forall_forall in Hy. now apply Hy.
    + constructor; [now constructor|].
      constructor; [lra|].
      rewrite Forall_forall in Hy |- *. intros z Hz.
      apply Rle_trans with (fst y); [now apply Hy | lra].
Qed.

Lemma sort_desc_sorted (l : list (R * Question)) :
  StronglySorted (fun a b => fst b <= fst a) (sort_desc l).
Proof.
  induction l as [|x l IH]; simpl; [constructor | now apply insert_desc_sorted].
Qed.

(** The head of the sorted list is the first item of largest key. *)
Lemma sort_desc_head (l : list (R * Question)) :
  l <> [] ->
  exists i top sorted,
    sort_desc l = top :: sorted /\
    nth_error l i = Some top /\
    (forall x, In x l -> fst x <= fst top) /\
    (forall j x, (j < i)%nat -> nth_error l j = Some x -> fst x < fst top).
Proof.
  induction l as [|x l IH]; intro Hne; [now destruct Hne|].
  destruct l as [|y l].
  - exists 0%nat, x, []. simpl. repeat split.
    + intros z [<- | []]. lra.
    + intros j z Hj. lia.
  - destruct IH as [i [top [sorted [Es [Hnth [Hmax Hfirst]]]]]]; [discriminate|].
    change (sort_desc (x :: y :: l)) with (insert_desc x (sort_desc (y :: l))).
    rewrite Es. simpl insert_desc.
    destruct (Rlt_dec (fst x) (fst top)) as [Hlt | Hge].
    + exists (S i), top, (insert_desc x sorted). repeat split.
      * exact Hnth.
      * intros z [<- | Hz]; [lra | now apply Hmax].
      * intros [|j] z Hj Hz.
        -- injection Hz as <-. exact Hlt.
        -- apply (Hfirst j); [lia | exact Hz].
    + exists 0%nat, x, (top :: sorted). repeat split.
      * intros z [<- | Hz]; [lra|].
        apply Rle_trans with (fst top); [now apply Hmax | lra].
      * intros j z Hj. lia.
Qed.

Lemma first_maximum_unique (questions : list Question) (score : Question -> R)
                           (i i' : nat) (q q' : Question) :
  first_maximum questions score i q ->
  first_maximum questions score i' q' ->
  i' = i /\ q' = q.
Proof.
  intros [Hn [Hmax Hfirst]] [Hn' [Hmax' Hfirst']].
  assert (Hq : In q questions) by (eapply nth_error_In; exact Hn).
  assert (Hq' : In q' questions) by (eapply nth_error_In; exact Hn').
  destruct (Nat.lt_trichotomy i i') as [Hlt | [-> | Hgt]].
  - pose proof (Hfirst' i q Hlt Hn). pose proof (Hmax q' Hq'). lra.
  - split; [reflexivity | congruence].
  - pose proof (Hfirst i' q' Hgt Hn'). pose proof (Hmax' q Hq). lra.
Qed.

(** C1.  From a bank that is not empty, [select_next_question] returns a
    question of maximum score, and of the questions with that score the one
    at the earliest position of the list: every question before it scores
    strictly less.  Position and question are the only ones of that kind,
    so the choice is fixed by [questions], [history] and [now]: equal
    inputs give the same question. *)
Theorem select_next_question_first_max (questions : list Question)
                                       (history : list History) (now : R) :
  questions <> [] ->
  exists i q,
    select_next_question questions history now = Ok q /\
    first_maximum questions (fun q => compute_priority q history now) i q /\
    (forall i' q',
       first_maximum questions (fun q => compute_priority q history now) i' q' ->
       i' = i /\ q' = q).
Proof.
  intro Hne. unfold select_next_question. cbv zeta.
  set (score := fun q => (compute_priority q history now, q)).
  destruct (sort_desc_head (map score questions))
    as [i [top [sorted [Es [Hnth [Hmax Hfirst]]]]]].
  { destruct questions; [now destruct Hne | discriminate]. }
  rewrite nth_error_map in Hnth.
  destruct (nth_error questions i) as [q|] eqn:Eq; [|discriminate].
  injection Hnth as <-. exists i, q. rewrite Es.
  assert (Hfm : first_maximum questions
                  (fun q => compute_priority q history now) i q).
  { split; [exact Eq|]. split.
    - intros q' Hq'. apply (Hmax (score q')). now apply in_map.
    - intros j q' Hj Hq'. apply (Hfirst j (score q') Hj).
      rewrite nth_error_map, Hq'. reflexivity. }
  split; [reflexivity|]. split; [exact Hfm|].
  intros i' q' Hfm'. exact (first_maximum_unique _ _ _ _ _ _ Hfm Hfm').
Qed.

Lemma select_next_question_empty (questions : list Question)
                                 (history : list History) (now : R) :
  select_next_question questions history now = Raise IndexError
  <-> questions = [].
Proof.
  split; [|now intros ->].
  destruct questions as [|q questions]; [reflexivity|].
  unfold select_next_question. simpl.
  destruct (insert_desc _ _) as [|top sorted] eqn:E; [|discriminate].
  now destruct (insert_desc_not_nil _ _ E).
Qed.

(** * Properties of the stores *)

Section StoreProperties.

Context {rt : Runtime}.

(** ** What the loaders can raise *)

Lemma getitem_raises (raw : JSON) (key : string) (e : exn) :
  getitem raw key = Raise e -> format_error e = true.
Proof.
  destruct raw as [| | | | | |items]; simpl; intro E;
    try (injection E as <-; reflexivity).
  destruct (lookup key items); [discriminate|].
  injection E as <-. reflexivity.
Qed.

Lemma getitem_Ok (raw : JSON) (key : string) (v : JSON) :
  getitem raw key = Ok v ->
  exists items, raw = JObj items /\ lookup key items = Some v.
Proof.
  destruct raw as [| | | | | |items]; simpl; intro E; try discriminate E.
  destruct (lookup key items) as [w|] eqn:El; [|discriminate].
  injection E as <-. now exists items.
Qed.

Lemma getitem_not_IllTyped (raw : JSON) (key : string) :
  getitem raw key <> IllTyped.
Proof.
  destruct raw as [| | | | | |items]; simpl; try discriminate.
  destruct (lookup key items); discriminate.
Qed.

Lemma get_object (items : list (string * JSON)) (key : string) (default : JSON) :
  get (JObj items) key default
  = Ok (match lookup key items with Some v => v | None => default end).
Proof. simpl. now destruct (lookup key items). Qed.

Lemma py_int_outcome (v : JSON) :
  (exists z, py_int v = Ok z) \/
  (exists e, py_int v = Raise e /\ format_error e = true).
Proof.
  destruct v as [|b|z|r|s|items|items]; simpl;
    try (left; eexists; reflexivity);
    try (right; eexists; split; reflexivity).
  destruct (int_of_str s); [left | right]; eexists; try split; reflexivity.
Qed.

Lemma py_float_outcome (v : JSON) :
  (exists r, py_float v = Ok r) \/
  (exists e, py_float v = Raise e /\ format_error e = true).
Proof.
  destruct v as [|b|z|r|s|items|items]; simpl;
    try (left; eexists; reflexivity);
    try (right; eexists; split; reflexivity).
  destruct (float_of_str s); [left | right]; eexists; try split; reflexivity.
Qed.

(** [History.from_dict] returns a record or raises one of the format
    errors. *)
Lemma History_from_dict_outcome (now : R) (raw : JSON) :
  (exists h, History_from_dict now raw = Ok h) \/
  (exists e, History_from_dict now raw = Raise e /\ format_error e = true).
Proof.
  unfold History_from_dict.
  destruct (getitem raw "question_id") as [qid|e|] eqn:Eq; simpl.
  - destruct (getitem_Ok _ _ _ Eq) as [items [-> _]].
    rewrite !get_object. simpl.
    destruct (py_int_outcome
                match lookup "attempts" items with Some v => v | None => JInt 1 end)
      as [[a ->] | [e [-> He]]]; simpl; [|right; now exists e].
    destruct (py_float_outcome
                match lookup "seconds" items with Some v => v | None => JFloat 0 end)
      as [[s ->] | [e [-> He]]]; simpl; [|right; now exists e].
    destruct (py_float_outcome
                match lookup "timestamp" items with Some v => v | None => JFloat now end)
      as [[t ->] | [e [-> He]]]; simpl; [|right; now exists e].
    left. eexists. reflexivity.
  - right. exists e. split; [reflexivity|]. exact (getitem_raises _ _ _ Eq).
  - now destruct (getitem_not_IllTyped _ _ Eq).
Qed.

Lemma History_from_dict_rejects (now : R) (raw : JSON) :
  match raw with
  | JObj items => lookup "question_id" items = None
  | _ => True
  end ->
  exists e, History_from_dict now raw = Raise e /\ format_error e = true.
Proof.
  intro Hbad. unfold History_from_dict.
  destruct raw as [| | | | | |items]; simpl;
    try (eexists; split; reflexivity).
  rewrite Hbad. simpl. eexists; split; reflexivity.
Qed.

Lemma load_history_lines_outcome (clock : nat -> R) (lines : list string) :
  forall k,
    (exists records, load_history_lines clock k lines = Ok records) \/
    (exists e, load_history_lines clock k lines = Raise e /\ format_error e = true).
Proof.
  induction lines as [|line lines IH]; intro k; simpl.
  - left. now eexists.
  - destruct (is_empty (str_strip line)); [apply IH|].
    destruct (json_loads (str_strip line)) as [raw|].
    + destruct (History_from_dict_outcome (clock k) raw)
        as [[h ->] | [e [-> He]]]; simpl; [|right; now exists e].
      destruct (IH (S k)) as [[records ->] | [e [-> He]]]; simpl.
      * left. now eexists.
      * right. now exists e.
    + right. eexists; split; reflexivity.
Qed.

Lemma load_history_lines_rejects (clock : nat -> R) (lines : list string) :
  Exists rejected_line lines ->
  forall k, exists e,
    load_history_lines clock k lines = Raise e /\ format_error e = true.
Proof.
  induction 1 as [line lines [Hne Hbad] | line lines Hex IH]; intro k; simpl.
  - rewrite Hne.
    destruct (json_loads (str_strip line)) as [raw|];
      [|eexists; split; reflexivity].
    destruct (History_from_dict_rejects (clock k) raw) as [e [-> He]].
    + destruct raw; try exact I. exact Hbad.
    + simpl. now exists e.
  - destruct (is_empty (str_strip line)); [apply IH|].
    destruct (json_loads (str_strip line)) as [raw|];
      [|eexists; split; reflexivity].
    destruct (History_from_dict_outcome (clock k) raw)
      as [[h ->] | [e [-> He]]]; simpl; [|now exists e].
    destruct (IH (S k)) as [e [-> He]]. simpl. now exists e.
Qed.

Lemma Question_from_dict_raises (raw : JSON) (e : exn) :
  Question_from_dict raw = Raise e -> format_error e = true.
Proof.
  unfold Question_from_dict.
  destruct (getitem raw "id") as [i|e1|] eqn:Ei; simpl;
    [| intro E; injection E as <-; exact (getitem_raises _ _ _ Ei)
     | discriminate].
  destruct (getitem raw "type") as [t|e2|] eqn:Et; simpl;
    [| intro E; injection E as <-; exact (getitem_raises _ _ _ Et)
     | discriminate].
  destruct (getitem_Ok _ _ _ Ei) as [items [-> _]].
  rewrite get_object. simpl.
  destruct (as_str i) as [i'|e3|] eqn:Ai; simpl; [| | discriminate].
  2:{ destruct i; discriminate Ai. }
  destruct (as_str t) as [t'|e4|] eqn:At; simpl; [| | discriminate].
  2:{ destruct t; discriminate At. }
  destruct (as_str_list _) as [ts|e5|] eqn:Ats; simpl;
    [discriminate | | discriminate].
  exfalso. revert Ats.
  destruct (match lookup "tags" items with Some v => v | None => JArr [] end)
    as [| | | | |vs|]; simpl; try discriminate.
  revert e5. clear. induction vs as [|v vs IH]; simpl; intro e5; [discriminate|].
  destruct v; simpl; try discriminate.
  destruct (as_str_list_items vs) as [ss|e6|] eqn:E; simpl; try discriminate.
  intro E'. injection E' as <-. now apply (IH e6).
Qed.

Lemma load_questions_lines_raises (lines : list string) (e : exn) :
  load_questions_lines lines = Raise e -> format_error e = true.
Proof.
  induction lines as [|line lines IH]; simpl; [discriminate|].
  destruct (is_empty (str_strip line)); [exact IH|].
  destruct (json_loads (str_strip line)) as [raw|];
    [|intro E; injection E as <-; reflexivity].
  destruct (Question_from_dict raw) as [q|e1|] eqn:Eq; simpl;
    [| intro E; injection E as <-; exact (Question_from_dict_raises _ _ Eq)
     | discriminate].
  destruct (load_questions_lines lines) as [qs|e2|]; simpl;
    [discriminate | | discriminate].
  intro E. injection E as <-. now apply IH.
Qed.

(** C4.  [select_next_question] raises [IndexError], the empty-bank error,
    exactly when the list of questions is empty; [load_questions] raises
    [FileNotFoundError] exactly when the bank file does not exist;
    [load_history] of a file that does not exist returns the empty list. *)
Theorem error_conditions :
  (forall (questions : list Question) (history : list History) (now : R),
     select_next_question questions history now = Raise IndexError
     <-> questions = []) /\
  (forall (fs : FS) (path : Path),
     load_questions fs path = Raise FileNotFoundError <-> fs path = None) /\
  (forall (fs : FS) (path : Path) (clock : nat -> R),
     fs path = None -> load_history fs path clock = Ok []).
Proof.
  split; [exact select_next_question_empty|]. split.
  - intros fs path. unfold load_questions.
    destruct (fs path) as [text|]; split; intro E;
      try reflexivity; try discriminate E.
    apply load_questions_lines_raises in E. discriminate E.
  - intros fs path clock E. unfold load_history. now rewrite E.
Qed.

(** ** Lines that are refused, skipped or completed *)

(** C5, as the code has it.  A history source with a line that is not
    empty once stripped and that is not valid JSON, or not an object, or
    an object without [question_id], makes [load_history] raise one of the
    format errors: no list is returned.  A line that is empty once stripped
    is skipped, and a record that carries none of [attempts], [seconds],
    [correct], [timestamp] is completed with 1, 0.0, [False] and the
    current time. *)
Theorem load_history_strictness :
  (forall (fs : FS) (path : Path) (text : string) (clock : nat -> R),
     fs path = Some text ->
     Exists rejected_line (readlines text) ->
     exists e, load_history fs path clock = Raise e /\ format_error e = true) /\
  (forall (clock : nat -> R) (k : nat) (line : string) (lines : list string),
     is_empty (str_strip line) = true ->
     load_history_lines clock k (line :: lines)
     = load_history_lines clock k lines) /\
  (forall (now : R) (items : list (string * JSON)) (qid : JSON),
     lookup "question_id" items = Some qid ->
     lookup "attempts" items = None ->
     lookup "seconds" items = None ->
     lookup "correct" items = None ->
     lookup "timestamp" items = None ->
     History_from_dict now (JObj items) = Ok (mkHistory qid 1 0 false now)).
Proof.
  split; [|split].
  - intros fs path text clock Hfs Hex. unfold load_history. rewrite Hfs.
    now apply load_history_lines_rejects.
  - intros clock k line lines Hblank. simpl. now rewrite Hblank.
  - intros now items qid Hq Ha Hs Hc Ht. unfold History_from_dict.
    simpl. rewrite Hq. simpl. rewrite Ha. simpl. rewrite Hs. simpl.
    rewrite Hc. simpl. rewrite Ht. reflexivity.
Qed.

(** ** Appending a line *)

Lemma readlines_nil (text : string) : readlines text = [] -> text = EmptyString.
Proof.
  destruct text as [|c text]; [reflexivity|]. simpl.
  destruct (Ascii.eqb c newline); [discriminate|].
  destruct (readlines text); discriminate.
Qed.

Lemma complete_lines_tail (c : ascii) (text : string) :
  complete_lines (String c text) = true -> complete_lines text = true.
Proof. destruct text; [reflexivity | simpl; auto]. Qed.

Lemma readlines_app (a b : string) :
  complete_lines a = true ->
  readlines (a ++ b) = (readlines a ++ readlines b)%list.
Proof.
  induction a as [|c a IH]; intro Hc; [reflexivity|].
  pose proof (IH (complete_lines_tail _ _ Hc)) as IH'.
  change (String c a ++ b) with (String c (a ++ b)).
  simpl readlines. destruct (Ascii.eqb c newline) eqn:Ec.
  - rewrite IH'. reflexivity.
  - rewrite IH'. destruct (readlines a) as [|l ls] eqn:Er; [|reflexivity].
    apply readlines_nil in Er. subst a. simpl in Hc. congruence.
Qed.

Lemma readlines_one_line (s : string) :
  has_newline s = false ->
  readlines (s ++ String newline EmptyString) = [s ++ String newline EmptyString].
Proof.
  induction s as [|c s IH]; simpl; intro Hn; [reflexivity|].
  apply orb_false_iff in Hn. destruct Hn as [Hc Hs].
  rewrite Hc, (IH Hs). reflexivity.
Qed.

Lemma complete_lines_app_newline (a : string) :
  complete_lines (a ++ String newline EmptyString) = true.
Proof.
  induction a as [|c a IH]; [reflexivity|].
  change (String c a ++ String newline EmptyString)
    with (String c (a ++ String newline EmptyString)).
  destruct a as [|d a]; [reflexivity | exact IH].
Qed.

Lemma string_app_assoc (a b c : string) : (a ++ b) ++ c = a ++ (b ++ c).
Proof. induction a as [|x a IH]; simpl; [reflexivity | now rewrite IH]. Qed.

Lemma load_history_lines_app (clock : nat -> R) (lines1 lines2 : list string) :
  forall k,
    load_history_lines clock k (lines1 ++ lines2)
    = (records1 <- load_history_lines clock k lines1 ;;
       records2 <- load_history_lines clock (k + List.length records1) lines2 ;;
       Ok (records1 ++ records2)%list).
Proof.
  induction lines1 as [|line lines1 IH]; intro k; simpl.
  - rewrite Nat.add_0_r.
    now destruct (load_history_lines clock k lines2).
  - destruct (is_empty (str_strip line)); [apply IH|].
    destruct (json_loads (str_strip line)) as [raw|]; [|reflexivity].
    destruct (History_from_dict (clock k) raw) as [h|e|]; simpl;
      try reflexivity.
    rewrite (IH (S k)).
    destruct (load_history_lines clock (S k) lines1) as [rs|e|]; simpl;
      try reflexivity.
    replace (k + S (List.length rs))%nat with (S (k + List.length rs)) by lia.
    now destruct (load_history_lines clock (S (k + List.length rs)) lines2).
Qed.

Lemma History_from_dict_entry (now' : R) (question_id : string) (attempts : Z)
                              (seconds : R) (correct : bool) (now : R) :
  History_from_dict now' (entry question_id attempts seconds correct now)
  = Ok (mkHistory (JStr question_id) attempts seconds correct now).
Proof. reflexivity. Qed.

(** After [record_result] the log is made of whole lines. *)
Lemma record_result_whole_lines (fs : FS) (question_id : string) (attempts : Z)
                                (seconds : R) (correct : bool) (path : Path)
                                (now : R) :
  whole_lines (record_result fs question_id attempts seconds correct path now)
              path.
Proof.
  intros text. unfold record_result, append_file, write_file.
  rewrite String.eqb_refl. intro E. injection E as <-.
  rewrite <- string_app_assoc. apply complete_lines_app_newline.
Qed.

(** [record_result] only adds at the end: what was in the log is the
    beginning of what is in it afterwards. *)
Lemma record_result_appends (fs : FS) (question_id : string) (attempts : Z)
                            (seconds : R) (correct : bool) (path : Path)
                            (now : R) (text : string) :
  fs path = Some text ->
  exists added,
    record_result fs question_id attempts seconds correct path now path
    = Some (text ++ added).
Proof.
  intro E. unfold record_result, append_file, write_file.
  rewrite String.eqb_refl, E. now eexists.
Qed.

(** [record_result] writes to no other file. *)
Lemma record_result_other (fs : FS) (question_id : string) (attempts : Z)
                          (seconds : R) (correct : bool) (path other : Path)
                          (now : R) :
  other <> path ->
  record_result fs question_id attempts seconds correct path now other
  = fs other.
Proof.
  intro Hne. unfold record_result, append_file, write_file.
  destruct (String.eqb other path) eqn:E; [|reflexivity].
  apply String.eqb_eq in E. now destruct Hne.
Qed.

(** Loading after a call is loading before it, then the record written:
    an exception of the earlier lines is raised as before. *)
Lemma load_history_record_result (fs : FS) (question_id : string) (attempts : Z)
                                 (seconds : R) (correct : bool) (path : Path)
                                 (now : R) (clock : nat -> R) :
  reads_back (entry question_id attempts seconds correct now) ->
  whole_lines fs path ->
  load_history (record_result fs question_id attempts seconds correct path now)
               path clock
  = (old <- load_history fs path clock ;;
     Ok (old ++ [mkHistory (JStr question_id) attempts seconds correct now])%list).
Proof.
  intros [Hnl [Hne Hloads]] Hwhole.
  set (e := entry question_id attempts seconds correct now) in *.
  set (line := json_dumps e ++ String newline EmptyString) in *.
  assert (Hline : forall k,
            load_history_lines clock k [line]
            = Ok [mkHistory (JStr question_id) attempts seconds correct now]).
  { intro k. simpl. rewrite Hne, Hloads. unfold e.
    now rewrite History_from_dict_entry. }
  assert (Hread : readlines line = [line])
    by (apply readlines_one_line; exact Hnl).
  unfold load_history, record_result, append_file, write_file.
  rewrite String.eqb_refl. fold e. fold line.
  destruct (fs path) as [text|] eqn:Efs.
  - rewrite readlines_app by (now apply Hwhole).
    rewrite Hread, load_history_lines_app.
    destruct (load_history_lines clock 0 (readlines text)) as [old|err|];
      cbn [bind]; try reflexivity.
    now rewrite Hline.
  - cbn [bind append]. rewrite Hread. apply Hline.
Qed.

(** A log that [record_result] alone has written, from no file on, loads
    as the records of the calls, in the order of the calls. *)
Lemma load_history_record_results (calls : list Outcome) :
  forall (fs : FS) (path : Path) (clock : nat -> R) (old : list History),
    (forall o, In o calls -> reads_back (entry_of o)) ->
    whole_lines fs path ->
    load_history fs path clock = Ok old ->
    load_history (record_results fs path calls) path clock
    = Ok (old ++ map record_of calls)%list.
Proof.
  induction calls as [|o calls IH]; intros fs path clock old Hrt Hwhole Hold.
  - simpl. now rewrite app_nil_r.
  - simpl record_results. rewrite (IH _ path clock (old ++ [record_of o])%list).
    + now rewrite <- app_assoc.
    + intros o' Ho'. apply Hrt. now right.
    + apply record_result_whole_lines.
    + rewrite load_history_record_result; [|apply Hrt; now left | exact Hwhole].
      now rewrite Hold.
Qed.

(** X9.  A log that does not exist and is then written by calls of
    [record_result] alone loads as the records of the calls, one for each
    call and in the order of the calls, provided the runtime reads back the
    entry of every call. *)
Lemma load_history_recorded_from_scratch (calls : list Outcome) (fs : FS)
                                         (path : Path) (clock : nat -> R) :
  fs path = None ->
  (forall o, In o calls -> reads_back (entry_of o)) ->
  load_history (record_results fs path calls) path clock
  = Ok (map record_of calls).
Proof.
  intros Hnone Hrt.
  apply (load_history_record_results calls fs path clock []); [exact Hrt | |].
  - intros text E. congruence.
  - unfold load_history. now rewrite Hnone.
Qed.

(** C9.  Round trip.  The runtime is taken to write the entry on one line
    that [json.loads] reads back as the same entry, and the log to hold
    whole lines only (as every log that [record_result] has written does).
    Then, where the log loaded as [old] before the call, it loads after the
    call as [old] followed by the record just written: the [question_id],
    [attempts], [seconds] and [correct] given, and the timestamp of the
    write. *)
Theorem record_result_roundtrip (fs : FS) (question_id : string) (attempts : Z)
                                (seconds : R) (correct : bool) (path : Path)
                                (now : R) (clock : nat -> R)
                                (old : list History) :
  reads_back (entry question_id attempts seconds correct now) ->
  whole_lines fs path ->
  load_history fs path clock = Ok old ->
  load_history (record_result fs question_id attempts seconds correct path now)
               path clock
  = Ok (old ++ [mkHistory (JStr question_id) attempts seconds correct now])%list.
Proof.
  intros Hrt Hwhole Hold.
  rewrite (load_history_record_result _ _ _ _ _ _ _ _ Hrt Hwhole), Hold.
  reflexivity.
Qed.

End StoreProperties.

(** * The scenarios of the specification *)

(** With an empty history the tricky [q1] (5.25) is chosen before [q2]
    (5.0). *)
Example select_tricky_first (now : R) :
  select_next_question bank [] now = Ok q1.
Proof.
  unfold select_next_question, bank. simpl.
  destruct (Rlt_dec _ _) as [Hlt | _]; [|reflexivity].
  exfalso. revert Hlt. unfold compute_priority, tricky_bonus. simpl. lra.
Qed.

(** Two unseen questions without the tag tie at 5.0: the first one of the
    list is chosen, in either order. *)
Example select_tie_first (now : R) :
  select_next_question [q2; q3] [] now = Ok q2 /\
  select_next_question [q3; q2] [] now = Ok q3.
Proof.
  split; unfold select_next_question; simpl;
    (destruct (Rlt_dec _ _) as [Hlt | _]; [|reflexivity]);
    exfalso; revert Hlt; unfold compute_priority, tricky_bonus; simpl; lra.
Qed.

(** One miss in two attempts and four seconds, eighteen hours ago: miss
    factor 2.4, slow penalty 1, decay one half, score 2.4. *)
Example score_after_a_miss :
  compute_priority q2 [missed_q2] eighteen_hours = 2.4.
Proof.
  unfold compute_priority. simpl.
  unfold miss_factor, slow_penalty, decay, hours_since, tricky_bonus,
    eighteen_hours. simpl.
  replace ((18 * 3600 - 0) / 3600 * ln 0.5 / 18) with (ln 0.5) by field.
  rewrite exp_ln by lra.
  replace (4 / 4) with 1 by field.
  rewrite Rmin_right by lra.
  replace (incorrect_sum [missed_q2] "q2") with 1%Z by reflexivity.
  change (Z.max 0 1) with 1%Z. lra.
Qed.

(** So the unseen [q1] is chosen before the missed [q2]. *)
Example select_unseen_first :
  select_next_question bank [missed_q2] eighteen_hours = Ok q1.
Proof.
  unfold select_next_question, bank.
  change (map _ [q1; q2])
    with [(compute_priority q1 [missed_q2] eighteen_hours, q1);
          (compute_priority q2 [missed_q2] eighteen_hours, q2)].
  rewrite score_after_a_miss. simpl.
  destruct (Rlt_dec _ _) as [Hlt | _]; [|reflexivity].
  exfalso. revert Hlt. unfold compute_priority, tricky_bonus. simpl. lra.
Qed.

(** * The theorems at concrete inputs *)

Lemma select_next_question_first_max_witness :
  exists i q,
    select_next_question bank [missed_q2] 100 = Ok q /\
    first_maximum bank (fun q => compute_priority q [missed_q2] 100) i q /\
    (forall i' q',
       first_maximum bank (fun q => compute_priority q [missed_q2] 100) i' q' ->
       i' = i /\ q' = q).
Proof.
  apply (select_next_question_first_max bank [missed_q2] 100). discriminate.
Defined.

Lemma compute_priority_seen_witness :
  exists last,
    is_last_seen [orphan; missed_q2] "q2" last /\
    compute_priority q2 [orphan; missed_q2] 100
    = priority_formula q2 (matching [orphan; missed_q2] "q2") last 100.
Proof.
  apply (compute_priority_seen q2 [orphan; missed_q2] 100).
  exists missed_q2. split; [right; left; reflexivity | reflexivity].
Defined.

Lemma compute_priority_unseen_witness :
  (In "tricky" (tags q1) -> compute_priority q1 [missed_q2] 100 = 5 + 0.25) /\
  (~ In "tricky" (tags q1) -> compute_priority q1 [missed_q2] 100 = 5).
Proof.
  apply (compute_priority_unseen q1 [missed_q2] 100).
  intros h [<- | []]. discriminate.
Defined.

Lemma compute_priority_just_seen_witness :
  compute_priority q2 [missed_q2; orphan] 0 = 0.
Proof.
  apply (compute_priority_just_seen q2 [missed_q2; orphan] 0).
  - exists missed_q2. repeat split. now left.
  - intros h [<- | [<- | []]] Hq; [simpl; lra | discriminate Hq].
Defined.

Lemma compute_priority_mono_hours_witness :
  compute_priority q2 [missed_q2] 3600
  <= compute_priority q2 [orphan; missed_q2] 7200.
Proof.
  apply (compute_priority_mono_hours q2 [missed_q2] [orphan; missed_q2]
           missed_q2 missed_q2 3600 7200).
  - reflexivity.
  - reflexivity.
  - reflexivity.
  - reflexivity.
  - simpl. lra.
  - unfold hours_since. simpl. lra.
Defined.

Lemma compute_priority_mono_incorrect_witness :
  compute_priority q2 [passed_q2] 3600 <= compute_priority q2 [missed_q2] 3600.
Proof.
  apply (compute_priority_mono_incorrect q2 [passed_q2] [missed_q2]
           passed_q2 missed_q2 3600).
  - reflexivity.
  - reflexivity.
  - reflexivity.
  - reflexivity.
  - reflexivity.
  - vm_compute. discriminate.
  - simpl. lra.
  - simpl. lra.
Defined.

Lemma orphan_history_noninterference_witness :
  (forall q, In q bank ->
     compute_priority q (filter (fun h => qid_eqb h "q2") [orphan; missed_q2]) 100
     = compute_priority q [orphan; missed_q2] 100) /\
  select_next_question bank
    (filter (fun h => qid_eqb h "q2") [orphan; missed_q2]) 100
  = select_next_question bank [orphan; missed_q2] 100.
Proof.
  apply (proj2 orphan_history_noninterference bank [orphan; missed_q2]
           (fun h => qid_eqb h "q2") 100).
  intros h [<- | [<- | []]] Hkeep q [<- | [<- | []]];
    try discriminate Hkeep; discriminate.
Defined.

Lemma error_conditions_witness :
  select_next_question [] [missed_q2] 100 = Raise IndexError /\
  @load_questions example_runtime no_files QUESTION_BANK
  = Raise FileNotFoundError /\
  @load_history example_runtime no_files PROGRESS_LOG (fun _ => 100) = Ok [].
Proof.
  destruct (@error_conditions example_runtime) as [Hselect [Hbank Hlog]].
  split; [|split].
  - apply Hselect. reflexivity.
  - apply Hbank. reflexivity.
  - apply Hlog. reflexivity.
Defined.

Lemma load_history_strictness_witness :
  exists e,
    @load_history example_runtime broken_fs PROGRESS_LOG (fun _ => 100) = Raise e
    /\ format_error e = true.
Proof.
  apply (proj1 (@load_history_strictness example_runtime) broken_fs PROGRESS_LOG
           ("oops" ++ String newline EmptyString) (fun _ => 100)).
  - reflexivity.
  - apply Exists_cons_hd. split; [reflexivity | exact I].
Defined.

(** C5, as the claim has it, fails.  The log [bare_text] has a line that is
    not valid structured data (the blank one) and a line that lacks
    [attempts], [seconds], [correct] and [timestamp]; [load_history] raises
    nothing: it skips the first and completes the second with 1, 0.0,
    [False] and the time of the load. *)
Lemma load_history_completes_and_skips :
  (exists line, In line (readlines bare_text)
                /\ @invalid_line example_runtime line) /\
  (exists line, In line (readlines bare_text)
                /\ @incomplete_line example_runtime line) /\
  @load_history example_runtime bare_fs PROGRESS_LOG (fun _ => 100)
  = Ok [mkHistory (JStr "q1") 1 0 false 100].
Proof.
  split; [|split].
  - exists (String newline EmptyString). split; [now left | reflexivity].
  - exists (bare_line ++ String newline EmptyString).
    split; [right; now left|].
    exists [("question_id", JStr "q1")]. split; [reflexivity|].
    exists "attempts". split; [right; now left | reflexivity].
  - reflexivity.
Qed.

Lemma record_result_roundtrip_witness :
  @load_history example_runtime
    (@record_result example_runtime bare_fs "q1" 2 4 true PROGRESS_LOG 100)
    PROGRESS_LOG (fun _ => 100)
  = Ok [mkHistory (JStr "q1") 1 0 false 100; mkHistory (JStr "q1") 2 4 true 100].
Proof.
  apply (@record_result_roundtrip example_runtime bare_fs "q1" 2 4 true
           PROGRESS_LOG 100 (fun _ => 100) [mkHistory (JStr "q1") 1 0 false 100]).
  - repeat split.
  - intros text E. injection E as <-. reflexivity.
  - reflexivity.
Defined.

(** * More of the scorer *)

(** ** Which record is the last one *)

Lemma max_by_timestamp_first (rest : list History) :
  forall best,
    (max_by_timestamp best rest = best /\
     forall h, In h rest -> timestamp h <= timestamp best) \/
    (exists r1 r2,
       rest = (r1 ++ max_by_timestamp best rest :: r2)%list /\
       timestamp best < timestamp (max_by_timestamp best rest) /\
       (forall h, In h r1 -> timestamp h < timestamp (max_by_timestamp best rest)) /\
       (forall h, In h r2 -> timestamp h <= timestamp (max_by_timestamp best rest))).
Proof.
  induction rest as [|x rest IH]; intro best; simpl.
  - left. split; [reflexivity | intros h []].
  - destruct (Rlt_dec (timestamp best) (timestamp x)) as [Hlt | Hge].
    + right. destruct (IH x) as [[E Hle] | [r1 [r2 [E [Hx [H1 H2]]]]]].
      * exists [], rest. rewrite E. simpl. repeat split; try assumption.
        intros h [].
      * exists (x :: r1), r2. simpl. rewrite <- E. repeat split.
        -- lra.
        -- intros h [<- | Hh]; [exact Hx | now apply H1].
        -- exact H2.
    + destruct (IH best) as [[E Hle] | [r1 [r2 [E [Hx [H1 H2]]]]]].
      * left. split; [exact E|]. intros h [<- | Hh]; [lra | now apply Hle].
      * right. exists (x :: r1), r2. simpl. rewrite <- E. repeat split.
        -- exact Hx.
        -- intros h [<- | Hh]; [lra | now apply H1].
        -- exact H2.
Qed.

Lemma filter_split {A : Type} (f : A -> bool) (l : list A) :
  forall r1 m r2,
    filter f l = (r1 ++ m :: r2)%list ->
    exists l1 l2,
      l = (l1 ++ m :: l2)%list /\ filter f l1 = r1 /\ filter f l2 = r2.
Proof.
  induction l as [|x l IH]; intros r1 m r2 E; simpl in E.
  - destruct r1; discriminate E.
  - destruct (f x) eqn:Ef.
    + destruct r1 as [|y r1]; simpl in E; injection E as <- E.
      * exists [], l. simpl. now repeat split.
      * destruct (IH _ _ _ E) as [l1 [l2 [-> [E1 E2]]]].
        exists (x :: l1), l2. simpl. rewrite Ef, E1. now repeat split.
    + destruct (IH _ _ _ E) as [l1 [l2 [-> [E1 E2]]]].
      exists (x :: l1), l2. simpl. rewrite Ef. now repeat split.
Qed.

(** X1.  [_last_seen] answers [None] exactly when no record matches the
    question.  Otherwise it answers the first matching record of largest
    timestamp: the matching records before it in the history are strictly
    older, the ones after it are not newer. *)
Theorem _last_seen_first_latest (history : list History) (qid : string) :
  match _last_seen history qid with
  | None => forall h, In h history -> question_id h <> JStr qid
  | Some last =>
      exists before after,
        history = (before ++ last :: after)%list /\
        question_id last = JStr qid /\
        (forall h, In h before -> question_id h = JStr qid ->
                   timestamp h < timestamp last) /\
        (forall h, In h after -> question_id h = JStr qid ->
                   timestamp h <= timestamp last)
  end.
Proof.
  unfold _last_seen.
  destruct (matching history qid) as [|b rest] eqn:Em.
  - intros h Hh Hq.
    assert (Hin : In h (matching history qid)) by (now apply In_matching).
    rewrite Em in Hin. destruct Hin.
  - assert (Hm : In (max_by_timestamp b rest) (matching history qid))
      by (rewrite Em; apply max_by_timestamp_In).
    pose proof (max_by_timestamp_first rest b) as Hfirst.
    remember (max_by_timestamp b rest) as m eqn:Edef. clear Edef.
    assert (Hsplit : exists r1 r2,
              (b :: rest = r1 ++ m :: r2)%list /\
              (forall h, In h r1 -> timestamp h < timestamp m) /\
              (forall h, In h r2 -> timestamp h <= timestamp m)).
    { destruct Hfirst as [[E Hle] | [r1 [r2 [E [Hb [H1 H2]]]]]].
      - exists [], rest. rewrite E. simpl. repeat split; [intros h [] |].
        exact Hle.
      - exists (b :: r1), r2. simpl. rewrite <- E. repeat split.
        + intros h [<- | Hh]; [exact Hb | now apply H1].
        + exact H2. }
    destruct Hsplit as [r1 [r2 [E [H1 H2]]]].
    rewrite <- Em in E. unfold matching in E.
    destruct (filter_split _ _ _ _ _ E) as [before [after [Eh [E1 E2]]]].
    exists before, after. split; [exact Eh|]. split.
    + now apply In_matching in Hm.
    + split; intros h Hh Hq.
      * apply H1. rewrite <- E1. apply filter_In. split; [exact Hh|].
        now apply qid_eqb_true.
      * apply H2. rewrite <- E2. apply filter_In. split; [exact Hh|].
        now apply qid_eqb_true.
Qed.

(** ** Sign and size of the score *)

Lemma decay_pos (h : R) : 0 < decay h.
Proof. unfold decay. apply exp_pos. Qed.


Lemma decay_0 : decay 0 = 1.
Proof.
  unfold decay. replace (0 * ln 0.5 / 18) with 0 by field. apply exp_0.
Qed.


Lemma slow_penalty_le (last : History) : slow_penalty last <= 1.5.
Proof. unfold slow_penalty. apply Rmin_l. Qed.

Lemma tricky_bonus_le (q : Question) : tricky_bonus q <= 0.25.
Proof. unfold tricky_bonus. destruct (is_tricky q); lra. Qed.

Lemma miss_factor_seen (history : list History) (qid : string) :
  1 <= miss_factor (attempts_sum history qid) (incorrect_sum history qid).
Proof.
  apply miss_factor_ge_1. rewrite incorrect_sum_matching.
  apply incorrect_total_nonneg.
Qed.



(** X4.  With miss factor, last timestamp and [now >= last.timestamp] the
    same, a slower last answer never lowers the score, and beyond six
    seconds it no longer changes it: the slow penalty is capped at 1.5. *)
Theorem compute_priority_mono_seconds (q : Question)
                                      (history1 history2 : list History)
                                      (last1 last2 : History) (now : R) :
  _last_seen history1 (id q) = Some last1 ->
  _last_seen history2 (id q) = Some last2 ->
  miss_factor (attempts_sum history1 (id q)) (incorrect_sum history1 (id q))
  = miss_factor (attempts_sum history2 (id q)) (incorrect_sum history2 (id q)) ->
  timestamp last1 = timestamp last2 ->
  timestamp last1 <= now ->
  seconds last1 <= seconds last2 ->
  compute_priority q history1 now <= compute_priority q history2 now /\
  (6 <= seconds last1 ->
   compute_priority q history1 now = compute_priority q history2 now).
Proof.
  intros Hl1 Hl2 Hmiss Hts Hnow Hsec.
  unfold compute_priority. rewrite Hl1, Hl2. cbv zeta.
  rewrite <- Hmiss. unfold hours_since. rewrite <- Hts.
  fold (hours_since now last1).
  pose proof (miss_factor_seen history1 (id q)) as Hm.
  assert (Hd : decay (hours_since now last1) <= 1).
  { apply decay_le_1. unfold hours_since.
    apply Rmult_le_pos; [lra|]. left. apply Rinv_0_lt_compat. lra. }
  split.
  - assert (Hp : slow_penalty last1 <= slow_penalty last2).
    { unfold slow_penalty. apply Rle_min_compat_l. lra. }
    apply Rmult_le_compat_r; [lra|].
    apply Rmult_le_compat_r; lra.
  - intro H6.
    assert (Hp : slow_penalty last1 = slow_penalty last2).
    { unfold slow_penalty. rewrite !Rmin_left by lra. reflexivity. }
    now rewrite Hp.
Qed.

(** X5.  For a seen question with [now >= last.timestamp] and
    [last.seconds >= 0]: of two histories with the same number of incorrect
    matching records and the same seconds and timestamp of the last record,
    the one with the larger total of attempts gives a score at least as
    large. *)
Theorem compute_priority_mono_attempts (q : Question)
                                       (history1 history2 : list History)
                                       (last1 last2 : History) (now : R) :
  _last_seen history1 (id q) = Some last1 ->
  _last_seen history2 (id q) = Some last2 ->
  seconds last1 = seconds last2 ->
  timestamp last1 = timestamp last2 ->
  incorrect_sum history1 (id q) = incorrect_sum history2 (id q) ->
  (attempts_sum history1 (id q) <= attempts_sum history2 (id q))%Z ->
  0 <= seconds last1 ->
  timestamp last1 <= now ->
  compute_priority q history1 now <= compute_priority q history2 now.
Proof.
  intros Hl1 Hl2 Hsec Hts Hinc Hatt Hs Hnow.
  unfold compute_priority. rewrite Hl1, Hl2. cbv zeta.
  unfold slow_penalty, hours_since. rewrite <- Hsec, <- Hts, <- Hinc.
  fold (slow_penalty last1). fold (hours_since now last1).
  pose proof (tricky_bonus_nonneg q) as Hb.
  pose proof (slow_penalty_nonneg last1 Hs) as Hp.
  assert (Hm : miss_factor (attempts_sum history1 (id q)) (incorrect_sum history1 (id q))
               <= miss_factor (attempts_sum history2 (id q)) (incorrect_sum history1 (id q))).
  { unfold miss_factor.
    assert (Hz : (Z.max 0 (attempts_sum history1 (id q) - incorrect_sum history1 (id q))
                  <= Z.max 0 (attempts_sum history2 (id q) - incorrect_sum history1 (id q)))%Z)
      by lia.
    apply IZR_le in Hz. lra. }
  assert (Hd : decay (hours_since now last1) <= 1).
  { apply decay_le_1. unfold hours_since.
    apply Rmult_le_pos; [lra|]. left. apply Rinv_0_lt_compat. lra. }
  apply Rmult_le_compat_r; [lra|].
  apply Rmult_le_compat_l; lra.
Qed.

(** * More of the selection *)

Lemma select_next_question_some (questions : list Question)
                                (history : list History) (now : R) :
  questions <> [] ->
  exists i q,
    select_next_question questions history now = Ok q /\
    first_maximum questions (fun q => compute_priority q history now) i q.
Proof.
  intro Hne. unfold select_next_question. cbv zeta.
  set (score := fun q => (compute_priority q history now, q)).
  destruct (sort_desc_head (map score questions))
    as [i [top [sorted [Es [Hnth [Hmax Hfirst]]]]]].
  { destruct questions; [now destruct Hne | discriminate]. }
  rewrite nth_error_map in Hnth.
  destruct (nth_error questions i) as [q|] eqn:Eq; [|discriminate].
  injection Hnth as <-. exists i, q. rewrite Es.
  split; [reflexivity|]. split; [exact Eq|]. split.
  - intros q' Hq'. apply (Hmax (score q')). now apply in_map.
  - intros j q' Hj Hq'. apply (Hfirst j (score q') Hj).
    rewrite nth_error_map, Hq'. reflexivity.
Qed.

Lemma select_next_question_choice (questions : list Question)
                                  (history : list History) (now : R)
                                  (q : Question) :
  select_next_question questions history now = Ok q ->
  exists i, first_maximum questions (fun q => compute_priority q history now) i q.
Proof.
  intro E. destruct questions as [|q0 questions]; [discriminate E|].
  destruct (select_next_question_some (q0 :: questions) history now)
    as [i [q' [E' Hfm]]]; [discriminate|].
  rewrite E in E'. injection E' as <-. now exists i.
Qed.

Lemma compute_priority_no_record (q : Question) (history : list History)
                                 (now : R) :
  (forall h, In h history -> question_id h <> JStr (id q)) ->
  compute_priority q history now = 5 + tricky_bonus q.
Proof.
  intro Hno. unfold compute_priority. now rewrite (_last_seen_unseen _ _ Hno).
Qed.

(** X6.  Unseen questions come first when the seen ones are light: if the
    bank has a question without any record, and every seen question of the
    bank has [seconds >= 0] in its last record and a miss factor of at most
    5 / 2.75, then a question is selected and it is one without any
    record. *)
Theorem select_next_question_prefers_unseen (questions : list Question)
                                            (history : list History) (now : R) :
  (exists u, In u questions /\
             forall h, In h history -> question_id h <> JStr (id u)) ->
  (forall s last, In s questions -> _last_seen history (id s) = Some last ->
     0 <= seconds last /\
     2.75 * miss_factor (attempts_sum history (id s)) (incorrect_sum history (id s))
     <= 5) ->
  exists q,
    select_next_question questions history now = Ok q /\
    forall h, In h history -> question_id h <> JStr (id q).
Proof.
  intros [u [Hu Hunseen]] Hlight.
  destruct (select_next_question_some questions history now)
    as [i [q [Esel [Hn [Hmax _]]]]].
  { intro E. rewrite E in Hu. destruct Hu. }
  exists q. split; [exact Esel|].
  pose proof (Hmax u Hu) as Hle. simpl in Hle.
  rewrite (compute_priority_no_record u history now Hunseen) in Hle.
  pose proof (tricky_bonus_nonneg u) as Hb.
  destruct (_last_seen history (id q)) as [last|] eqn:El.
  - exfalso.
    destruct (Hlight q last (nth_error_In _ _ Hn) El) as [Hs Hm].
    unfold compute_priority in Hle. rewrite El in Hle. cbv zeta in Hle.
    pose proof (tricky_bonus_nonneg q) as Hb0.
    pose proof (tricky_bonus_le q) as Hb1.
    pose proof (slow_penalty_nonneg last Hs) as Hp0.
    pose proof (slow_penalty_le last) as Hp1.
    pose proof (miss_factor_seen history (id q)) as Hm1.
    pose proof (decay_pos (hours_since now last)) as Hd.
    assert (Hf : 0 < (1 + tricky_bonus q + slow_penalty last)
                     * miss_factor (attempts_sum history (id q))
                                   (incorrect_sum history (id q)))
      by (apply Rmult_lt_0_compat; lra).
    pose proof (Rmult_lt_0_compat _ _ Hf Hd) as Hfd.
    assert (Hc : (1 + tricky_bonus q + slow_penalty last)
                 * miss_factor (attempts_sum history (id q))
                               (incorrect_sum history (id q))
                 <= 2.75 * miss_factor (attempts_sum history (id q))
                                       (incorrect_sum history (id q)))
      by (apply Rmult_le_compat_r; lra).
    lra.
  - intros h Hh Hq. unfold _last_seen in El.
    assert (Hin : In h (matching history (id q))) by (now apply In_matching).
    destruct (matching history (id q)); [destruct Hin | discriminate El].
Qed.

Lemma find_first {A : Type} (f : A -> bool) (l : list A) (x : A) :
  find f l = Some x ->
  exists i, nth_error l i = Some x /\ f x = true /\
            forall j y, (j < i)%nat -> nth_error l j = Some y -> f y = false.
Proof.
  induction l as [|a l IH]; simpl; [discriminate|].
  destruct (f a) eqn:Ea.
  - intro E. injection E as <-. exists 0%nat. repeat split; try assumption.
    intros j y Hj. lia.
  - intro E. destruct (IH E) as [i [Hn [Hx Hbefore]]].
    exists (S i). repeat split; try assumption.
    intros [|j] y Hj Hy; simpl in Hy.
    + injection Hy as <-. exact Ea.
    + apply (Hbefore j); [lia | exact Hy].
Qed.

(** X7.  When no record of the history matches any question of the bank
    (a new learner), the question selected is the first one tagged
    "tricky", and the first question of the bank if none is tagged; an
    empty bank raises [IndexError]. *)
Theorem select_next_question_fresh (questions : list Question)
                                   (history : list History) (now : R) :
  (forall q h, In q questions -> In h history -> question_id h <> JStr (id q)) ->
  select_next_question questions history now
  = match find is_tricky questions with
    | Some t => Ok t
    | None =>
        match questions with
        | q :: _ => Ok q
        | [] => Raise IndexError
        end
    end.
Proof.
  intro Hfresh.
  assert (Hscore : forall q, In q questions ->
            compute_priority q history now = 5 + tricky_bonus q).
  { intros q Hq. apply compute_priority_no_record. intros h Hh.
    now apply Hfresh. }
  destruct questions as [|q0 questions]; [reflexivity|].
  destruct (select_next_question_some (q0 :: questions) history now)
    as [i [q [Esel Hfm]]]; [discriminate|].
  rewrite Esel.
  destruct (find is_tricky (q0 :: questions)) as [t|] eqn:Ef.
  - destruct (find_first _ _ _ Ef) as [k [Hk [Ht Hbefore]]].
    assert (Hcand : first_maximum (q0 :: questions)
                      (fun q => compute_priority q history now) k t).
    { split; [exact Hk|]. split.
      - intros q' Hq'. rewrite (Hscore q' Hq'), (Hscore t (nth_error_In _ _ Hk)).
        pose proof (tricky_bonus_le q'). unfold tricky_bonus at 2.
        rewrite Ht. lra.
      - intros j q' Hj Hq'.
        rewrite (Hscore q' (nth_error_In _ _ Hq')),
                (Hscore t (nth_error_In _ _ Hk)).
        unfold tricky_bonus. rewrite Ht, (Hbefore j q' Hj Hq'). lra. }
    destruct (first_maximum_unique _ _ _ _ _ _ Hfm Hcand) as [_ ->].
    reflexivity.
  - assert (Hcand : first_maximum (q0 :: questions)
                      (fun q => compute_priority q history now) 0 q0).
    { split; [reflexivity|]. split.
      - intros q' Hq'. rewrite (Hscore q' Hq'), (Hscore q0 (or_introl eq_refl)).
        unfold tricky_bonus.
        rewrite (find_none _ _ Ef q' Hq'), (find_none _ _ Ef q0 (or_introl eq_refl)).
        lra.
      - intros j q' Hj. lia. }
    destruct (first_maximum_unique _ _ _ _ _ _ Hfm Hcand) as [_ ->].
    reflexivity.
Qed.

(** * More of the stores *)

Section MoreStoreProperties.

Context {rt : Runtime}.

(** ** A recorded answer and the score *)

Lemma compute_priority_at_last (q : Question) (history : list History)
                               (last : History) :
  _last_seen history (id q) = Some last ->
  compute_priority q history (timestamp last) = 0.
Proof.
  intro Hlast. unfold compute_priority. rewrite Hlast. cbv zeta.
  unfold hours_since.
  replace ((timestamp last - timestamp last) / 3600) with 0 by field.
  rewrite decay_0. ring.
Qed.

(** X8.  A question just answered scores 0: when the log loaded as [old],
    no record of the question in [old] is dated after [now], and
    [record_result] writes an outcome of the question at [now], the log
    loads again and the question's score at [now] over the reloaded history
    is exactly 0. *)
Theorem recorded_question_scores_zero (fs : FS) (q : Question) (attempts : Z)
                                      (seconds : R) (correct : bool)
                                      (path : Path) (now : R)
                                      (clock : nat -> R) (old : list History) :
  reads_back (entry (id q) attempts seconds correct now) ->
  whole_lines fs path ->
  load_history fs path clock = Ok old ->
  (forall h, In h old -> question_id h = JStr (id q) -> timestamp h <= now) ->
  exists history,
    load_history (record_result fs (id q) attempts seconds correct path now)
                 path clock = Ok history /\
    compute_priority q history now = 0.
Proof.
  intros Hrt Hwhole Hold Hpast.
  set (new := mkHistory (JStr (id q)) attempts seconds correct now).
  exists (old ++ [new])%list. split.
  - rewrite (load_history_record_result _ _ _ _ _ _ _ _ Hrt Hwhole), Hold.
    reflexivity.
  - destruct (_last_seen_seen (old ++ [new])%list (id q)) as [last Hlast].
    { exists new. split; [apply in_or_app; right; now left | reflexivity]. }
    destruct (_last_seen_Some _ _ _ Hlast) as [Hin Hmax].
    assert (Hts : timestamp last = now).
    { apply Rle_antisym.
      - apply In_matching in Hin. destruct Hin as [Hin Hq].
        apply in_app_or in Hin. destruct Hin as [Hin | [<- | []]].
        + now apply Hpast.
        + simpl. lra.
      - change now with (timestamp new). apply Hmax. apply In_matching.
        split; [apply in_or_app; right; now left | reflexivity]. }
    rewrite <- Hts. now apply compute_priority_at_last.
Qed.

(** ** The log only grows *)

(** X10.  However many outcomes are recorded, the log only grows at its
    end and no other file changes: the text the log had is the beginning of
    the text it has afterwards. *)
Theorem record_results_append_only (calls : list Outcome) :
  forall (fs : FS) (path : Path),
    (forall other, other <> path ->
       record_results fs path calls other = fs other) /\
    (forall text, fs path = Some text ->
       exists added, record_results fs path calls path = Some (text ++ added)).
Proof.
  induction calls as [|o calls IH]; intros fs path; simpl.
  - split; [reflexivity|]. intros text E. exists EmptyString.
    rewrite E. f_equal. clear. induction text as [|c text IH]; simpl;
      [reflexivity | now rewrite <- IH].
  - destruct (IH (record_result fs (o_question_id o) (o_attempts o)
                    (o_seconds o) (o_correct o) path (o_time o)) path)
      as [Hother Hgrow].
    split.
    + intros other Hne. rewrite (Hother other Hne).
      now apply record_result_other.
    + intros text E.
      destruct (record_result_appends fs (o_question_id o) (o_attempts o)
                  (o_seconds o) (o_correct o) path (o_time o) text E)
        as [line Eline].
      destruct (Hgrow _ Eline) as [added Eadded].
      exists (line ++ added). rewrite Eadded. f_equal.
      apply string_app_assoc.
Qed.

(** ** What a bank line becomes *)

Lemma as_str_list_items_Ok (items : list JSON) (ss : list string) :
  as_str_list_items items = Ok ss -> items = map JStr ss.
Proof.
  revert ss. induction items as [|v items IH]; intros ss; simpl.
  - intro E. injection E as <-. reflexivity.
  - destruct v; simpl; try discriminate.
    destruct (as_str_list_items items) as [ss'|e|]; simpl; try discriminate.
    intro E. injection E as <-. simpl. f_equal. now apply IH.
Qed.

Lemma Question_from_dict_payload (raw : JSON) (q : Question) :
  Question_from_dict raw = Ok q -> payload q = raw.
Proof.
  unfold Question_from_dict.
  destruct (getitem raw "id") as [i|e|]; simpl; try discriminate.
  destruct (getitem raw "type") as [t|e|]; simpl; try discriminate.
  destruct (get raw "tags" (JArr [])) as [ts|e|]; simpl; try discriminate.
  destruct (as_str i) as [i'|e|]; simpl; try discriminate.
  destruct (as_str t) as [t'|e|]; simpl; try discriminate.
  destruct (as_str_list ts) as [ts'|e|]; simpl; try discriminate.
  intro E. injection E as <-. reflexivity.
Qed.

(** X11.  A question built by [Question.from_dict] keeps the whole record
    as its payload, and the record is an object whose [id] and [type] are
    the question's; its tags are the record's [tags], and no tags at all
    when the record has no such key. *)
Theorem Question_from_dict_fields (raw : JSON) (q : Question) :
  Question_from_dict raw = Ok q ->
  payload q = raw /\
  exists items,
    raw = JObj items /\
    lookup "id" items = Some (JStr (id q)) /\
    lookup "type" items = Some (JStr (type q)) /\
    match lookup "tags" items with
    | Some v => v = JArr (map JStr (tags q))
    | None => tags q = []
    end.
Proof.
  intro E. split; [now apply Question_from_dict_payload|].
  revert E. unfold Question_from_dict.
  destruct (getitem raw "id") as [i|e|] eqn:Ei; simpl; try discriminate.
  destruct (getitem_Ok _ _ _ Ei) as [items [-> Hi]].
  simpl. destruct (lookup "type" items) as [t|] eqn:Et; simpl; [|discriminate].
  destruct (lookup "id" items) as [i0|] eqn:Ei0; [|discriminate].
  injection Hi as ->.
  destruct (lookup "tags" items) as [ts|] eqn:Ets; simpl.
  - destruct i; simpl; try discriminate.
    destruct t; simpl; try discriminate.
    destruct ts; simpl; try discriminate.
    destruct (as_str_list_items items0) as [ss|e|] eqn:Ess; simpl;
      try discriminate.
    intro E. injection E as <-. simpl. exists items.
    rewrite Ei0, Et, Ets. repeat split.
    f_equal. now apply as_str_list_items_Ok.
  - destruct i; simpl; try discriminate.
    destruct t; simpl; try discriminate.
    intro E. injection E as <-. simpl. exists items.
    rewrite Ei0, Et, Ets. now repeat split.
Qed.

(** ** One question, one record, for every line that is not blank *)

Lemma stripped_lines_cons (line : string) (lines : list string) :
  stripped_lines (line :: lines)
  = if is_empty (str_strip line) then stripped_lines lines
    else str_strip line :: stripped_lines lines.
Proof.
  unfold stripped_lines. simpl. now destruct (is_empty (str_strip line)).
Qed.

Lemma In_stripped_lines (lines : list string) (s : string) :
  In s (stripped_lines lines) ->
  exists line, In line lines /\ s = str_strip line.
Proof.
  unfold stripped_lines. rewrite filter_In, in_map_iff.
  intros [[line [E Hin]] _]. now exists line.
Qed.

Lemma load_questions_lines_payloads (lines : list string) :
  forall questions,
    load_questions_lines lines = Ok questions ->
    Forall2 (fun q line => json_loads line = Some (payload q))
            questions (stripped_lines lines).
Proof.
  induction lines as [|line lines IH]; intros questions; simpl.
  - intro E. injection E as <-. constructor.
  - rewrite stripped_lines_cons.
    destruct (is_empty (str_strip line)); [apply IH|].
    destruct (json_loads (str_strip line)) as [data|] eqn:Ed; [|discriminate].
    destruct (Question_from_dict data) as [q|e|] eqn:Eq; simpl;
      try discriminate.
    destruct (load_questions_lines lines) as [qs|e|]; simpl; try discriminate.
    intro E. injection E as <-. constructor.
    + rewrite Ed. f_equal. symmetry. now apply Question_from_dict_payload.
    + now apply IH.
Qed.

(** X12.  A bank that loads gives one question for every line that is not
    blank, in the order of the file, and the payload of each question is
    what [json.loads] reads from its line: every field of the line is
    kept. *)
Theorem load_questions_in_file_order (fs : FS) (path : Path) (text : string)
                                     (questions : list Question) :
  fs path = Some text ->
  load_questions fs path = Ok questions ->
  Forall2 (fun q line => json_loads line = Some (payload q))
          questions (stripped_lines (readlines text)).
Proof.
  intros Hfs. unfold load_questions. rewrite Hfs.
  apply load_questions_lines_payloads.
Qed.

Lemma Question_from_dict_rejects (raw : JSON) :
  match raw with
  | JObj items => lookup "id" items = None \/ lookup "type" items = None
  | _ => True
  end ->
  forall q, Question_from_dict raw <> Ok q.
Proof.
  intros Hbad q. unfold Question_from_dict.
  destruct raw as [| | | | | |items]; simpl; try discriminate.
  destruct (lookup "id" items) as [i|] eqn:Ei; simpl; [|discriminate].
  destruct (lookup "type" items) as [t|] eqn:Et; simpl; [|discriminate].
  destruct Hbad; discriminate.
Qed.

Lemma load_questions_lines_rejects (lines : list string) :
  Exists rejected_bank_line lines ->
  forall questions, load_questions_lines lines <> Ok questions.
Proof.
  induction 1 as [line lines [Hne Hbad] | line lines Hex IH];
    intros questions; simpl.
  - rewrite Hne.
    destruct (json_loads (str_strip line)) as [raw|]; [|discriminate].
    destruct (Question_from_dict raw) as [q|e|] eqn:Eq; simpl;
      try discriminate.
    exfalso. apply (Question_from_dict_rejects raw) with (q := q); [|exact Eq].
    destruct raw; try exact I. exact Hbad.
  - destruct (is_empty (str_strip line)); [apply IH|].
    destruct (json_loads (str_strip line)) as [raw|]; [|discriminate].
    destruct (Question_from_dict raw) as [q|e|]; simpl; try discriminate.
    destruct (load_questions_lines lines) as [qs|e|] eqn:El; simpl;
      try discriminate.
    now destruct (IH qs).
Qed.

(** X13.  A bank with a line that is not blank and that is not valid JSON,
    or not an object, or an object without [id] or without [type], does not
    load: no list of questions is returned, not even the questions of the
    lines before it.  One of the format errors is raised (unless a line
    before it carried an [id], [type] or [tags] of another type than
    annotated, where the model stops). *)
Theorem load_questions_rejects (fs : FS) (path : Path) (text : string) :
  fs path = Some text ->
  Exists rejected_bank_line (readlines text) ->
  load_questions fs path = IllTyped \/
  exists e, load_questions fs path = Raise e /\ format_error e = true.
Proof.
  intros Hfs Hex. unfold load_questions. rewrite Hfs.
  pose proof (load_questions_lines_rejects _ Hex) as Hno.
  destruct (load_questions_lines (readlines text)) as [qs|e|] eqn:El.
  - now destruct (Hno qs).
  - right. exists e. split; [reflexivity|].
    now apply (load_questions_lines_raises (readlines text)).
  - now left.
Qed.

Lemma History_from_dict_question_id (now : R) (raw : JSON) (h : History) :
  History_from_dict now raw = Ok h ->
  getitem raw "question_id" = Ok (question_id h).
Proof.
  unfold History_from_dict.
  destruct (getitem raw "question_id") as [qid|e|]; simpl; try discriminate.
  destruct (v <- get raw "attempts" (JInt 1) ;; py_int v) as [a|e|]; simpl;
    try discriminate.
  destruct (v <- get raw "seconds" (JFloat 0) ;; py_float v) as [s|e|]; simpl;
    try discriminate.
  destruct (v <- get raw "correct" (JBool false) ;; Ok (py_bool v)) as [c|e|];
    simpl; try discriminate.
  destruct (v <- get raw "timestamp" (JFloat now) ;; py_float v) as [t|e|];
    simpl; try discriminate.
  intro E. injection E as <-. reflexivity.
Qed.

Lemma load_history_lines_question_ids (clock : nat -> R) (lines : list string) :
  forall k records,
    load_history_lines clock k lines = Ok records ->
    Forall2 (fun h line =>
               exists raw, json_loads line = Some raw /\
                           getitem raw "question_id" = Ok (question_id h))
            records (stripped_lines lines).
Proof.
  induction lines as [|line lines IH]; intros k records; simpl.
  - intro E. injection E as <-. constructor.
  - rewrite stripped_lines_cons.
    destruct (is_empty (str_strip line)); [apply IH|].
    destruct (json_loads (str_strip line)) as [raw|] eqn:Er; [|discriminate].
    destruct (History_from_dict (clock k) raw) as [h|e|] eqn:Eh; simpl;
      try discriminate.
    destruct (load_history_lines clock (S k) lines) as [hs|e|] eqn:El; simpl;
      try discriminate.
    intro E. injection E as <-. constructor.
    + exists raw. split; [exact Er|]. now apply (History_from_dict_question_id (clock k)).
    + now apply (IH (S k)).
Qed.

(** X14.  A log that loads gives one record for every line that is not
    blank, in the order of the file, each with the [question_id] that
    [json.loads] reads from its line. *)
Theorem load_history_in_file_order (fs : FS) (path : Path) (text : string)
                                   (clock : nat -> R) (records : list History) :
  fs path = Some text ->
  load_history fs path clock = Ok records ->
  Forall2 (fun h line =>
             exists raw, json_loads line = Some raw /\
                         getitem raw "question_id" = Ok (question_id h))
          records (stripped_lines (readlines text)).
Proof.
  intros Hfs. unfold load_history. rewrite Hfs.
  apply load_history_lines_question_ids.
Qed.

(** ** The command line *)

Lemma load_history_raises (fs : FS) (path : Path) (clock : nat -> R) (e : exn) :
  load_history fs path clock = Raise e -> format_error e = true.
Proof.
  unfold load_history. destruct (fs path) as [text|]; [|discriminate].
  destruct (load_history_lines_outcome clock (readlines text) 0)
    as [[records ->] | [e' [-> He]]]; [discriminate|].
  intro E. now injection E as <-.
Qed.

Lemma load_history_not_IllTyped (fs : FS) (path : Path) (clock : nat -> R) :
  load_history fs path clock <> IllTyped.
Proof.
  unfold load_history. destruct (fs path) as [text|]; [|discriminate].
  destruct (load_history_lines_outcome clock (readlines text) 0)
    as [[records ->] | [e' [-> He]]]; discriminate.
Qed.

Lemma load_questions_raises (fs : FS) (path : Path) (e : exn) :
  load_questions fs path = Raise e ->
  (e = FileNotFoundError /\ fs path = None) \/
  (format_error e = true /\ fs path <> None).
Proof.
  unfold load_questions. destruct (fs path) as [text|].
  - intro E. right. split; [|discriminate].
    now apply (load_questions_lines_raises (readlines text)).
  - intro E. injection E as <-. now left.
Qed.

Lemma select_next_question_raises (questions : list Question)
                                  (history : list History) (now : R) :
  match select_next_question questions history now with
  | Ok q => questions <> []
  | Raise e => e = IndexError /\ questions = []
  | IllTyped => False
  end.
Proof.
  destruct questions as [|q questions]; [now split|].
  destruct (select_next_question_some (q :: questions) history now)
    as [i [q' [-> _]]]; discriminate.
Qed.

(** X15.  [main] raises [FileNotFoundError] exactly when the bank file does
    not exist, whatever the log holds; it raises [IndexError] exactly when
    the bank loads without any question and the log loads. *)
Theorem main_errors (fs : FS) (clock : nat -> R) (now : R) :
  (main fs clock now = Raise FileNotFoundError <-> fs QUESTION_BANK = None) /\
  (main fs clock now = Raise IndexError <->
   load_questions fs QUESTION_BANK = Ok [] /\
   exists history, load_history fs PROGRESS_LOG clock = Ok history).
Proof.
  unfold main.
  destruct (load_questions fs QUESTION_BANK) as [questions|e|] eqn:Eq; simpl.
  - assert (Hbank : fs QUESTION_BANK <> None).
    { unfold load_questions in Eq. destruct (fs QUESTION_BANK); discriminate. }
    destruct (load_history fs PROGRESS_LOG clock) as [history|e|] eqn:Eh; simpl.
    + pose proof (select_next_question_raises questions history now) as Hs.
      destruct (select_next_question questions history now) as [q|e|]; simpl.
      * split; split; try discriminate; try (intro E; now destruct Hbank).
        intros [E _]. injection E as ->. now destruct Hs.
      * destruct Hs as [-> ->].
        split; split; try discriminate; try (intro E; now destruct Hbank).
        -- intros _. split; [reflexivity | now exists history].
        -- reflexivity.
      * destruct Hs.
    + pose proof (load_history_raises _ _ _ _ Eh) as He.
      split; split.
      * intro E. injection E as ->. discriminate He.
      * intro E. now destruct Hbank.
      * intro E. injection E as ->. discriminate He.
      * intros [_ [history E]]. discriminate E.
    + now destruct (load_history_not_IllTyped _ _ _ Eh).
  - destruct (load_questions_raises _ _ _ Eq) as [[-> Hnone] | [He Hsome]].
    + split; split; try reflexivity; try (intros _; exact Hnone);
        try discriminate.
      intros [E _]. discriminate E.
    + split; split.
      * intro E. injection E as ->. discriminate He.
      * intro E. now destruct Hsome.
      * intro E. injection E as ->. discriminate He.
      * intros [E _]. discriminate E.
  - split; split; try discriminate.
    + intro E. unfold load_questions in Eq. rewrite E in Eq. discriminate Eq.
    + intros [E _]. discriminate E.
Qed.

Lemma Forall2_In_left {A B : Type} (P : A -> B -> Prop) (l1 : list A)
                      (l2 : list B) (x : A) :
  Forall2 P l1 l2 -> In x l1 -> exists y, In y l2 /\ P x y.
Proof.
  induction 1 as [|a b l1 l2 Hab HF IH]; intros Hin; [destruct Hin|].
  destruct Hin as [<- | Hin].
  - exists b. split; [now left | exact Hab].
  - destruct (IH Hin) as [y [Hy Hxy]]. exists y. split; [now right | exact Hxy].
Qed.

(** X16.  What [main] prints is one line of the bank: when [main] returns a
    payload, the bank file exists and has a line that [json.loads] reads,
    once stripped, as exactly that payload. *)
Theorem main_prints_a_bank_line (fs : FS) (clock : nat -> R) (now : R)
                                (v : JSON) :
  main fs clock now = Ok v ->
  exists text line,
    fs QUESTION_BANK = Some text /\
    In line (readlines text) /\
    json_loads (str_strip line) = Some v.
Proof.
  unfold main.
  destruct (load_questions fs QUESTION_BANK) as [questions|e|] eqn:Eq; simpl;
    try discriminate.
  destruct (load_history fs PROGRESS_LOG clock) as [history|e|]; simpl;
    try discriminate.
  destruct (select_next_question questions history now) as [q|e|] eqn:Es;
    simpl; try discriminate.
  intro E. injection E as <-.
  destruct (select_next_question_choice _ _ _ _ Es) as [i [Hn _]].
  apply nth_error_In in Hn.
  unfold load_questions in Eq.
  destruct (fs QUESTION_BANK) as [text|]; [|discriminate].
  pose proof (load_questions_lines_payloads _ _ Eq) as HF.
  destruct (Forall2_In_left _ _ _ _ HF Hn) as [s [Hs Hloads]].
  destruct (In_stripped_lines _ _ Hs) as [line [Hline ->]].
  now exists text, line.
Qed.

(** ** A bank written by [write_jsonl] and read by [load_questions] *)

Lemma readlines_jsonl_text (dumps : JSON -> string) (items : list JSON) :
  (forall item, In item items -> has_newline (dumps item) = false) ->
  readlines (jsonl_text dumps items)
  = map (fun item => dumps item ++ String newline EmptyString) items.
Proof.
  induction items as [|item items IH]; intro Hn; simpl; [reflexivity|].
  rewrite readlines_app by apply complete_lines_app_newline.
  rewrite readlines_one_line by (apply Hn; now left).
  simpl. f_equal. apply IH. intros it Hit. apply Hn. now right.
Qed.

(** X19.  Round trip of a bank file.  [write_jsonl] replaces whatever the
    file held by one line for each item; where the runtime writes every
    item on one line that [json.loads] reads back as the item, and every
    item is a record [Question.from_dict] accepts, [load_questions] of the
    file returns the questions of the items, in the order of the items. *)
Theorem write_jsonl_load_questions (dumps : JSON -> string) (fs : FS)
                                   (path : Path) (items : list JSON)
                                   (questions : list Question) :
  (forall item, In item items ->
     has_newline (dumps item) = false /\
     is_empty (str_strip (dumps item ++ String newline EmptyString)) = false /\
     json_loads (str_strip (dumps item ++ String newline EmptyString))
     = Some item) ->
  Forall2 (fun item q => Question_from_dict item = Ok q) items questions ->
  load_questions (write_jsonl dumps fs path items) path = Ok questions.
Proof.
  intros Hrt HF. unfold load_questions, write_jsonl, write_file.
  rewrite String.eqb_refl.
  rewrite readlines_jsonl_text by (intros item Hi; now destruct (Hrt item Hi)).
  induction HF as [|item q items questions Hq HF IH]; [reflexivity|].
  simpl. destruct (Hrt item (or_introl eq_refl)) as [_ [Hne Hloads]].
  rewrite Hne, Hloads, Hq. simpl.
  rewrite IH; [reflexivity|]. intros it Hit. apply Hrt. now right.
Qed.

End MoreStoreProperties.

(** * The generators *)

(** ** [split_initial_final] *)

Lemma prefix_cons (a b : ascii) (s1 s2 : string) :
  String.prefix (String a s1) (String b s2) = true ->
  a = b /\ String.prefix s1 s2 = true.
Proof.
  change (String.prefix (String a s1) (String b s2))
    with (match ascii_dec a b with
          | left _ => String.prefix s1 s2
          | right _ => false
          end).
  destruct (ascii_dec a b); [now split | discriminate].
Qed.

Lemma prefix_skip (init s : string) :
  String.prefix init s = true -> init ++ skip (String.length init) s = s.
Proof.
  revert s. induction init as [|a init IH]; intros s.
  - destruct s; reflexivity.
  - destruct s as [|b s]; [discriminate|].
    intro H. apply prefix_cons in H. destruct H as [<- H].
    simpl. now rewrite (IH s H).
Qed.

Lemma split_with_parts (inits : list string) (syllable : string) :
  fst (split_with inits syllable) ++ snd (split_with inits syllable) = syllable /\
  ((In (fst (split_with inits syllable)) inits /\
    String.prefix (fst (split_with inits syllable)) syllable = true) \/
   (fst (split_with inits syllable) = EmptyString /\
    forall init, In init inits -> String.prefix init syllable = false)).
Proof.
  induction inits as [|init inits IH]; simpl.
  - split; [reflexivity|]. right. split; [reflexivity | intros init []].
  - destruct (String.prefix init syllable) eqn:Ep; simpl.
    + split; [now apply prefix_skip|]. left. split; [now left | exact Ep].
    + destruct IH as [Hcat [[Hin Hp] | [He Hnone]]].
      * split; [exact Hcat|]. left. split; [now right | exact Hp].
      * split; [exact Hcat|]. right. split; [exact He|].
        intros i [<- | Hi]; [exact Ep | now apply Hnone].
Qed.

Lemma split_with_first (before after : list string) (init syllable : string) :
  String.prefix init syllable = true ->
  (forall i, In i before -> String.prefix i syllable = false) ->
  fst (split_with (before ++ init :: after) syllable) = init.
Proof.
  intros Hp. induction before as [|b before IH]; intro Hnone; simpl.
  - now rewrite Hp.
  - rewrite (Hnone b (or_introl eq_refl)). apply IH.
    intros i Hi. apply Hnone. now right.
Qed.

Lemma prefix_other_letter (a b : ascii) (s1 s2 syllable : string) :
  a <> b ->
  String.prefix (String a s1) syllable = true ->
  String.prefix (String b s2) syllable = false.
Proof.
  intros Hne Hp. destruct syllable as [|c syllable]; [discriminate Hp|].
  apply prefix_cons in Hp. destruct Hp as [<- _].
  destruct (String.prefix (String b s2) (String a syllable)) eqn:E;
    [|reflexivity].
  apply prefix_cons in E. destruct E as [-> _]. now destruct Hne.
Qed.

(** X17.  [split_initial_final] cuts a syllable in two parts that put
    together give the syllable back.  The first part is one of the listed
    initials with which the syllable starts, and it is empty only when the
    syllable starts with none of them; a syllable that starts with "zh",
    "ch" or "sh" gets that pair of letters, not "z", "c" or "s". *)
Theorem split_initial_final_parts (syllable : string) :
  fst (split_initial_final syllable) ++ snd (split_initial_final syllable)
  = syllable /\
  ((In (fst (split_initial_final syllable)) initials /\
    String.prefix (fst (split_initial_final syllable)) syllable = true) \/
   (fst (split_initial_final syllable) = EmptyString /\
    forall init, In init initials -> String.prefix init syllable = false)) /\
  (forall pair, In pair ["zh"; "ch"; "sh"] ->
     String.prefix pair syllable = true ->
     fst (split_initial_final syllable) = pair).
Proof.
  split; [apply split_with_parts|]. split; [apply split_with_parts|].
  intros pair Hpair Hp. unfold split_initial_final, initials.
  destruct Hpair as [<- | [<- | [<- | []]]].
  - apply (split_with_first []); [exact Hp | intros i []].
  - apply (split_with_first ["zh"]); [exact Hp|].
    intros i [<- | []].
    apply (prefix_other_letter "c" "z" "h" "h"); [discriminate | exact Hp].
  - apply (split_with_first ["zh"; "ch"]); [exact Hp|].
    intros i [<- | [<- | []]].
    + apply (prefix_other_letter "s" "z" "h" "h"); [discriminate | exact Hp].
    + apply (prefix_other_letter "s" "c" "h" "h"); [discriminate | exact Hp].
Qed.

(** ** [pick_audio] *)

Lemma lookup_In (key : string) (items : list (string * JSON)) (v : JSON) :
  lookup key items = Some v -> In v (map snd items).
Proof.
  induction items as [|[k w] items IH]; simpl; [discriminate|].
  destruct (String.eqb k key).
  - intro E. injection E as <-. now left.
  - intro E. right. now apply IH.
Qed.

Lemma pick_by_speaker_Some (bucket : Bucket) (speaker_order : list string)
                           (val : JSON) :
  pick_by_speaker bucket speaker_order = Some val ->
  py_bool val = true /\
  exists sp, In sp speaker_order /\ lookup sp bucket = Some val.
Proof.
  induction speaker_order as [|sp order IH]; simpl; [discriminate|].
  destruct (lookup sp bucket) as [v|] eqn:El.
  - destruct (py_bool v) eqn:Eb.
    + intro E. injection E as <-. split; [exact Eb|].
      exists sp. split; [now left | exact El].
    + intro E. destruct (IH E) as [Hb [sp' [Hin Hl]]].
      split; [exact Hb|]. exists sp'. split; [now right | exact Hl].
  - intro E. destruct (IH E) as [Hb [sp' [Hin Hl]]].
    split; [exact Hb|]. exists sp'. split; [now right | exact Hl].
Qed.

Lemma pick_any_result (values : list JSON) :
  match pick_any values with
  | Some val => py_bool val = true /\ In val values
  | None => forall val, In val values -> py_bool val = false
  end.
Proof.
  induction values as [|v values IH]; simpl; [intros val []|].
  destruct (py_bool v) eqn:Eb.
  - split; [exact Eb | now left].
  - destruct (pick_any values) as [val|].
    + destruct IH as [Hb Hin]. split; [exact Hb | now right].
    + intros val [<- | Hin]; [exact Eb | now apply IH].
Qed.

Lemma pick_by_speaker_nil (speaker_order : list string) :
  pick_by_speaker [] speaker_order = None.
Proof. induction speaker_order as [|sp order IH]; simpl; auto. Qed.

(** X18.  [pick_audio] answers a recording of the tone whenever the tone
    has one: what it returns is a value of the tone's bucket that is true,
    and it returns [None] only when the bucket has no such value (or the
    entry has no bucket for the tone), whichever speakers are asked for. *)
Theorem pick_audio_result (entry : IndexEntry) (tone : string)
                          (speaker_order : list string) :
  match pick_audio entry tone speaker_order with
  | Some val =>
      py_bool val = true /\
      exists bucket, lookup_bucket tone entry = Some bucket /\
                     In val (map snd bucket)
  | None =>
      forall bucket, lookup_bucket tone entry = Some bucket ->
        forall val, In val (map snd bucket) -> py_bool val = false
  end.
Proof.
  unfold pick_audio.
  destruct (lookup_bucket tone entry) as [bucket|] eqn:Eb.
  - destruct (pick_by_speaker bucket speaker_order) as [val|] eqn:Ep.
    + destruct (pick_by_speaker_Some _ _ _ Ep) as [Hb [sp [_ Hl]]].
      split; [exact Hb|]. exists bucket. split; [reflexivity|].
      now apply (lookup_In sp).
    + pose proof (pick_any_result (map snd bucket)) as Ha.
      destruct (pick_any (map snd bucket)) as [val|].
      * destruct Ha as [Hb Hin]. split; [exact Hb|]. now exists bucket.
      * intros b E. injection E as <-. exact Ha.
  - rewrite pick_by_speaker_nil. simpl. intros b E. discriminate E.
Qed.

(** X20.  [pick_audio] prefers the speakers in the order asked: when a
    speaker of the list has a recording that is true, and no speaker before
    it in the list has one, the recording of that speaker is returned. *)
Theorem pick_audio_prefers_order (entry : IndexEntry) (tone : string)
                                 (bucket : Bucket)
                                 (before after : list string)
                                 (sp : string) (val : JSON) :
  lookup_bucket tone entry = Some bucket ->
  lookup sp bucket = Some val ->
  py_bool val = true ->
  (forall sp' v, In sp' before -> lookup sp' bucket = Some v ->
                 py_bool v = false) ->
  pick_audio entry tone (before ++ sp :: after) = Some val.
Proof.
  intros Eb El Hb Hbefore. unfold pick_audio. rewrite Eb.
  assert (Hp : pick_by_speaker bucket (before ++ sp :: after) = Some val).
  { induction before as [|s before IH]; simpl.
    - now rewrite El, Hb.
    - destruct (lookup s bucket) as [v|] eqn:Es.
      + rewrite (Hbefore s v (or_introl eq_refl) Es).
        apply IH. intros sp' v' Hin. apply Hbefore. now right.
      + apply IH. intros sp' v' Hin. apply Hbefore. now right. }
  now rewrite Hp.
Qed.

(** ** [load_common] *)

Lemma NoDup_snoc {A : Type} (l : list A) (x : A) :
  NoDup l -> ~ In x l -> NoDup (l ++ [x]).
Proof.
  induction 1 as [|a l Ha Hl IH]; intro Hx; simpl.
  - constructor; [intros [] | constructor].
  - constructor.
    + intro Hin. apply in_app_or in Hin. destruct Hin as [Hin | [<- | []]].
      * now apply Ha.
      * apply Hx. now left.
    + apply IH. intro Hin. apply Hx. now right.
Qed.

Lemma existsb_eqb_In (p : string) (seen : list string) :
  existsb (String.eqb p) seen = true <-> In p seen.
Proof.
  rewrite existsb_exists. split.
  - intros [x [Hin E]]. apply String.eqb_eq in E. now subst.
  - intro Hin. exists p. split; [exact Hin | apply String.eqb_refl].
Qed.

Lemma is_empty_true (s : string) : is_empty s = true <-> s = EmptyString.
Proof. destruct s; simpl; split; intro E; try reflexivity; discriminate E. Qed.

Lemma fold_keep_new (parts : list string) :
  forall seen,
    NoDup seen -> ~ In EmptyString seen ->
    NoDup (fold_left keep_new parts seen) /\
    ~ In EmptyString (fold_left keep_new parts seen) /\
    (forall p, In p (fold_left keep_new parts seen) <->
               In p seen \/ (In p parts /\ p <> EmptyString)).
Proof.
  induction parts as [|x parts IH]; intros seen Hnd Hne; simpl.
  - repeat split; try assumption; [now left | now intros [H | [[] _]]].
  - assert (Hstep : NoDup (keep_new seen x) /\ ~ In EmptyString (keep_new seen x) /\
                    forall p, In p (keep_new seen x) <->
                              In p seen \/ (p = x /\ p <> EmptyString)).
    { unfold keep_new.
      destruct (is_empty x) eqn:Ee; simpl.
      - apply is_empty_true in Ee. subst x. repeat split; try assumption.
        + now left.
        + intros [H | [-> H]]; [exact H | now destruct H].
      - destruct (existsb (String.eqb x) seen) eqn:Ex; simpl.
        + apply existsb_eqb_In in Ex. repeat split; try assumption.
          * now left.
          * intros [H | [-> _]]; [exact H | exact Ex].
        + assert (Hx : ~ In x seen).
          { intro Hin. apply existsb_eqb_In in Hin. congruence. }
          assert (Hxe : x <> EmptyString).
          { intro E. apply is_empty_true in E. congruence. }
          repeat split.
          * now apply NoDup_snoc.
          * intro Hin. apply in_app_or in Hin.
            destruct Hin as [Hin | [E | []]]; [now apply Hne | now apply Hxe].
          * intro Hin. apply in_app_or in Hin.
            destruct Hin as [Hin | [<- | []]]; [now left | now right].
          * intros [H | [-> _]]; apply in_or_app; [now left | right; now left]. }
    destruct Hstep as [Hnd' [Hne' Hin']].
    destruct (IH _ Hnd' Hne') as [H1 [H2 H3]].
    repeat split; try assumption.
    + intro Hp. apply H3 in Hp. destruct Hp as [Hp | [Hp Hpe]].
      * apply Hin' in Hp. destruct Hp as [Hp | [-> Hp]];
          [now left | right; split; [now left | exact Hp]].
      * right. split; [now right | exact Hpe].
    + intros [Hp | [[<- | Hp] Hpe]]; apply H3.
      * left. apply Hin'. now left.
      * left. apply Hin'. right. now split.
      * right. now split.
Qed.

(** X21.  The list [load_common] returns has no duplicate and no empty
    string, and holds exactly the parts of the file, cut at commas and line
    ends, stripped and lowered, that are not empty. *)
Theorem load_common_distinct {rt : Runtime} (lower : string -> string)
                             (fs : FS) (raw : string) (common : list string) :
  fs COMMON_PATH = Some raw ->
  load_common lower fs = Ok common ->
  NoDup common /\
  ~ In EmptyString common /\
  (forall p, In p common <->
     p <> EmptyString /\
     exists part, In part (split_commas (replace_newlines raw)) /\
                  p = lower (str_strip part)).
Proof.
  intros Hfs. unfold load_common. rewrite Hfs. intro E. injection E as <-.
  destruct (fold_keep_new
              (map (fun p => lower (str_strip p))
                   (split_commas (replace_newlines raw))) [])
    as [Hnd [Hne Hin]]; [constructor | intros [] |].
  split; [exact Hnd|]. split; [exact Hne|].
  intro p. rewrite Hin, in_map_iff. split.
  - intros [[] | [[part [E Hpart]] Hpe]]. split; [exact Hpe|]. now exists part.
  - intros [Hpe [part [Hpart E]]]. right. split; [|exact Hpe]. now exists part.
Qed.

(** * More examples *)

Example select_second_tricky (now : R) :
  select_next_question [q2; q1] [] now = Ok q1.
Proof.
  unfold select_next_question. simpl.
  destruct (Rlt_dec _ _) as [_ | Hn]; [reflexivity|].
  exfalso. apply Hn. unfold compute_priority, tricky_bonus. simpl. lra.
Qed.

Example split_zhang :
  split_initial_final "zhang" = ("zh", "ang") /\
  split_initial_final "an" = ("", "an").
Proof. split; reflexivity. Qed.

Example load_common_example :
  @load_common example_runtime ascii_lower common_fs = Ok ["ma"; "ba"; "mi"].
Proof. reflexivity. Qed.

(** * The further theorems at concrete inputs *)



Lemma compute_priority_mono_seconds_witness :
  compute_priority q2 [missed_q2] 3600 <= compute_priority q2 [slow_q2] 3600 /\
  (6 <= seconds missed_q2 ->
   compute_priority q2 [missed_q2] 3600 = compute_priority q2 [slow_q2] 3600).
Proof.
  apply (compute_priority_mono_seconds q2 [missed_q2] [slow_q2]
           missed_q2 slow_q2 3600).
  - reflexivity.
  - reflexivity.
  - reflexivity.
  - reflexivity.
  - simpl. lra.
  - simpl. lra.
Defined.

Lemma compute_priority_mono_attempts_witness :
  compute_priority q2 [missed_q2] 3600 <= compute_priority q2 [retried_q2] 3600.
Proof.
  apply (compute_priority_mono_attempts q2 [missed_q2] [retried_q2]
           missed_q2 retried_q2 3600).
  - reflexivity.
  - reflexivity.
  - reflexivity.
  - reflexivity.
  - reflexivity.
  - vm_compute. discriminate.
  - simpl. lra.
  - simpl. lra.
Defined.

Lemma select_next_question_prefers_unseen_witness :
  exists q,
    select_next_question bank [first_try_q2] 3600 = Ok q /\
    forall h, In h [first_try_q2] -> question_id h <> JStr (id q).
Proof.
  apply (select_next_question_prefers_unseen bank [first_try_q2] 3600).
  - exists q1. split; [now left|]. intros h [<- | []]. discriminate.
  - intros s last [<- | [<- | []]] E; [discriminate E|].
    injection E as <-. split; [simpl; lra|].
    unfold miss_factor.
    replace (attempts_sum [first_try_q2] (id q2)) with 1%Z by reflexivity.
    replace (incorrect_sum [first_try_q2] (id q2)) with 0%Z by reflexivity.
    change (Z.max 0 (1 - 0)) with 1%Z. lra.
Defined.

Lemma select_next_question_fresh_witness :
  select_next_question bank [orphan] 100 = Ok q1.
Proof.
  apply (select_next_question_fresh bank [orphan] 100).
  intros q h [<- | [<- | []]] [<- | []]; discriminate.
Defined.

Lemma recorded_question_scores_zero_witness :
  exists history,
    @load_history example_runtime
      (@record_result example_runtime bare_fs (id q1) 2 4 true PROGRESS_LOG 100)
      PROGRESS_LOG (fun _ => 100) = Ok history /\
    compute_priority q1 history 100 = 0.
Proof.
  apply (@recorded_question_scores_zero example_runtime bare_fs q1 2 4 true
           PROGRESS_LOG 100 (fun _ => 100) [mkHistory (JStr "q1") 1 0 false 100]).
  - repeat split.
  - intros text E. injection E as <-. reflexivity.
  - reflexivity.
  - intros h [<- | []] _. simpl. lra.
Defined.

Lemma load_history_recorded_from_scratch_witness :
  @load_history example_runtime
    (@record_results example_runtime no_files PROGRESS_LOG
       [mkOutcome "q1" 2 4 true 100; mkOutcome "q1" 2 4 true 100])
    PROGRESS_LOG (fun _ => 0)
  = Ok (map record_of
          [mkOutcome "q1" 2 4 true 100; mkOutcome "q1" 2 4 true 100]).
Proof.
  apply (@load_history_recorded_from_scratch example_runtime).
  - reflexivity.
  - intros o [<- | [<- | []]]; repeat split.
Defined.

Lemma record_results_append_only_witness :
  exists added,
    @record_results example_runtime bare_fs PROGRESS_LOG
      [mkOutcome "q1" 2 4 true 100; mkOutcome "q1" 2 4 true 100] PROGRESS_LOG
    = Some (bare_text ++ added).
Proof.
  apply (proj2 (@record_results_append_only example_runtime
                  [mkOutcome "q1" 2 4 true 100; mkOutcome "q1" 2 4 true 100]
                  bare_fs PROGRESS_LOG)).
  reflexivity.
Defined.

Lemma Question_from_dict_fields_witness :
  payload q1 = payload q1 /\
  exists items,
    payload q1 = JObj items /\
    lookup "id" items = Some (JStr (id q1)) /\
    lookup "type" items = Some (JStr (type q1)) /\
    match lookup "tags" items with
    | Some v => v = JArr (map JStr (tags q1))
    | None => tags q1 = []
    end.
Proof.
  apply (Question_from_dict_fields (payload q1) q1). reflexivity.
Defined.

Lemma load_questions_in_file_order_witness :
  Forall2 (fun q line => @json_loads bank_runtime line = Some (payload q))
          [q2; q1] (@stripped_lines bank_runtime (readlines bank_text)).
Proof.
  apply (@load_questions_in_file_order bank_runtime bank_fs QUESTION_BANK
           bank_text [q2; q1]); reflexivity.
Defined.

Lemma load_questions_rejects_witness :
  @load_questions bank_runtime bad_bank_fs QUESTION_BANK = IllTyped \/
  exists e, @load_questions bank_runtime bad_bank_fs QUESTION_BANK = Raise e
            /\ format_error e = true.
Proof.
  apply (@load_questions_rejects bank_runtime bad_bank_fs QUESTION_BANK
           (q2_line ++ String newline EmptyString
                    ++ no_id_line ++ String newline EmptyString)).
  - reflexivity.
  - apply Exists_cons_tl. apply Exists_cons_hd.
    split; [reflexivity | left; reflexivity].
Defined.

Lemma load_history_in_file_order_witness :
  Forall2 (fun h line =>
             exists raw, @json_loads example_runtime line = Some raw /\
                         getitem raw "question_id" = Ok (question_id h))
          [mkHistory (JStr "q1") 1 0 false 100]
          (@stripped_lines example_runtime (readlines bare_text)).
Proof.
  apply (@load_history_in_file_order example_runtime bare_fs PROGRESS_LOG
           bare_text (fun _ => 100)); reflexivity.
Defined.

Lemma main_prints_a_bank_line_witness :
  exists text line,
    bank_fs QUESTION_BANK = Some text /\
    In line (readlines text) /\
    @json_loads bank_runtime (@str_strip bank_runtime line) = Some (payload q1).
Proof.
  apply (@main_prints_a_bank_line bank_runtime bank_fs (fun _ => 0) 100).
  unfold main.
  replace (@load_questions bank_runtime bank_fs QUESTION_BANK)
    with (Ok [q2; q1]) by reflexivity.
  replace (@load_history bank_runtime bank_fs PROGRESS_LOG (fun _ => 0))
    with (@Ok (list History) []) by reflexivity.
  cbn [bind]. rewrite select_second_tricky. reflexivity.
Defined.

Lemma write_jsonl_load_questions_witness :
  @load_questions bank_runtime
    (write_jsonl bank_dumps bad_bank_fs QUESTION_BANK [payload q1; payload q2])
    QUESTION_BANK
  = Ok [q1; q2].
Proof.
  apply (@write_jsonl_load_questions bank_runtime bank_dumps bad_bank_fs
           QUESTION_BANK [payload q1; payload q2] [q1; q2]).
  - intros item [<- | [<- | []]]; repeat split.
  - repeat constructor.
Defined.

Lemma pick_audio_prefers_order_witness :
  pick_audio ma_entry "1" (["FV1"] ++ "FV2" :: ["MV1"]) = Some (audio_of "FV2").
Proof.
  apply (pick_audio_prefers_order ma_entry "1"
           [("FV1", JNull); ("FV2", audio_of "FV2"); ("MV1", audio_of "MV1")]
           ["FV1"] ["MV1"] "FV2" (audio_of "FV2")).
  - reflexivity.
  - reflexivity.
  - reflexivity.
  - intros sp' v [<- | []] E. injection E as <-. reflexivity.
Defined.

Lemma load_common_distinct_witness :
  NoDup ["ma"; "ba"; "mi"] /\
  ~ In EmptyString ["ma"; "ba"; "mi"] /\
  (forall p, In p ["ma"; "ba"; "mi"] <->
     p <> EmptyString /\
     exists part,
       In part (split_commas (replace_newlines ("ma, Ba" ++ String newline "ba,,mi")))
       /\ p = ascii_lower (@str_strip example_runtime part)).
Proof.
  apply (@load_common_distinct example_runtime ascii_lower common_fs
           ("ma, Ba" ++ String newline "ba,,mi") ["ma"; "ba"; "mi"]);
    reflexivity.
Defined.

(** * The order of the log and the last answer *)

Lemma Permutation_filter_keep {A : Type} (f : A -> bool) (l1 l2 : list A) :
  Permutation l1 l2 -> Permutation (filter f l1) (filter f l2).
Proof.
  induction 1 as [|x l1 l2 HP IH|x y l|l1 l2 l3 H12 IH12 H23 IH23]; simpl.
  - apply perm_nil.
  - destruct (f x); [now apply perm_skip | exact IH].
  - destruct (f x), (f y); try apply Permutation_refl. apply perm_swap.
  - now apply perm_trans with (filter f l2).
Qed.

Lemma attempts_total_perm (records1 records2 : list History) :
  Permutation records1 records2 ->
  attempts_total records1 = attempts_total records2.
Proof.
  induction 1 as [|x l1 l2 HP IH|x y l|l1 l2 l3 H12 IH12 H23 IH23]; simpl;
    lia.
Qed.

Lemma incorrect_total_perm (records1 records2 : list History) :
  Permutation records1 records2 ->
  incorrect_total records1 = incorrect_total records2.
Proof.
  intro HP. unfold incorrect_total. f_equal.
  apply Permutation_length. now apply Permutation_filter_keep.
Qed.

(** X22.  The order of the records in the history does not matter to the
    score of a question, as long as two of its records with the same
    timestamp have the same seconds (as when no two of them have the same
    timestamp): a rearranged history gives the same score. *)
Theorem compute_priority_history_order (q : Question)
                                       (history1 history2 : list History)
                                       (now : R) :
  Permutation history1 history2 ->
  (forall h h', In h history1 -> In h' history1 ->
     question_id h = JStr (id q) -> question_id h' = JStr (id q) ->
     timestamp h = timestamp h' -> seconds h = seconds h') ->
  compute_priority q history1 now = compute_priority q history2 now.
Proof.
  intros HP Hsame.
  assert (HPm : Permutation (matching history1 (id q)) (matching history2 (id q)))
    by (now apply Permutation_filter_keep).
  unfold compute_priority.
  rewrite !attempts_sum_matching, !incorrect_sum_matching.
  rewrite (attempts_total_perm _ _ HPm), (incorrect_total_perm _ _ HPm).
  destruct (_last_seen history1 (id q)) as [l1|] eqn:E1;
    destruct (_last_seen history2 (id q)) as [l2|] eqn:E2.
  - destruct (_last_seen_Some _ _ _ E1) as [Hin1 Hmax1].
    destruct (_last_seen_Some _ _ _ E2) as [Hin2 Hmax2].
    assert (Hin21 : In l2 (matching history1 (id q)))
      by (apply (Permutation_in _ (Permutation_sym HPm)); exact Hin2).
    assert (Hin12 : In l1 (matching history2 (id q)))
      by (apply (Permutation_in _ HPm); exact Hin1).
    assert (Hts : timestamp l1 = timestamp l2).
    { apply Rle_antisym; [now apply Hmax2 | now apply Hmax1]. }
    apply In_matching in Hin1. apply In_matching in Hin21.
    destruct Hin1 as [Hi1 Hq1]. destruct Hin21 as [Hi2 Hq2].
    pose proof (Hsame l1 l2 Hi1 Hi2 Hq1 Hq2 Hts) as Hsec.
    cbv zeta. unfold slow_penalty, hours_since. now rewrite Hsec, Hts.
  - exfalso. unfold _last_seen in E1, E2.
    destruct (matching history2 (id q)); [|discriminate E2].
    apply Permutation_sym, Permutation_nil in HPm. rewrite HPm in E1.
    discriminate E1.
  - exfalso. unfold _last_seen in E1, E2.
    destruct (matching history1 (id q)); [|discriminate E1].
    apply Permutation_nil in HPm. rewrite HPm in E2. discriminate E2.
  - reflexivity.
Qed.

Lemma matching_snoc (history : list History) (new : History) (qid : string) :
  matching (history ++ [new]) qid
  = (matching history qid ++ if qid_eqb new qid then [new] else [])%list.
Proof. unfold matching. rewrite filter_app. reflexivity. Qed.

Lemma max_by_timestamp_app (r1 r2 : list History) :
  forall best,
    max_by_timestamp best (r1 ++ r2)
    = max_by_timestamp (max_by_timestamp best r1) r2.
Proof.
  induction r1 as [|h r1 IH]; intro best; simpl; [reflexivity|].
  destruct (Rlt_dec (timestamp best) (timestamp h)); apply IH.
Qed.

(** The last record after one more matching record is written. *)
Lemma _last_seen_snoc (history : list History) (new : History) (qid : string) :
  qid_eqb new qid = true ->
  _last_seen (history ++ [new]) qid
  = Some match _last_seen history qid with
         | None => new
         | Some last =>
             if Rlt_dec (timestamp last) (timestamp new) then new else last
         end.
Proof.
  intro Hq. unfold _last_seen. rewrite matching_snoc, Hq.
  destruct (matching history qid) as [|b rest]; [reflexivity|].
  simpl. now rewrite max_by_timestamp_app.
Qed.

Lemma attempts_total_snoc (records : list History) (new : History) :
  attempts_total (records ++ [new]) = (attempts_total records + attempts new)%Z.
Proof. induction records as [|h records IH]; simpl; lia. Qed.

Lemma incorrect_total_snoc (records : list History) (new : History) :
  incorrect_total (records ++ [new])
  = (incorrect_total records + if correct new then 0 else 1)%Z.
Proof.
  unfold incorrect_total. rewrite filter_app, length_app. simpl.
  destruct (correct new); simpl; lia.
Qed.

(** X24.  A wrong answer brings a question back at least as soon as a right
    one: of two histories that end with a record of the question, the same
    but for [correct], the one ending with the wrong answer gives a score
    at least as large, when no record of the question is dated after [now]
    and none has negative seconds. *)
Theorem compute_priority_miss_above_pass (q : Question) (history : list History)
                                         (tries : Z) (seconds0 : R)
                                         (time now : R) :
  0 <= seconds0 ->
  time <= now ->
  (forall h, In h history -> question_id h = JStr (id q) ->
             0 <= seconds h /\ timestamp h <= now) ->
  compute_priority q
    (history ++ [mkHistory (JStr (id q)) tries seconds0 true time]) now
  <= compute_priority q
       (history ++ [mkHistory (JStr (id q)) tries seconds0 false time]) now.
Proof.
  intros Hs0 Ht0 Hold.
  set (pass := mkHistory (JStr (id q)) tries seconds0 true time).
  set (miss := mkHistory (JStr (id q)) tries seconds0 false time).
  assert (Hqp : qid_eqb pass (id q) = true) by (now apply qid_eqb_true).
  assert (Hqm : qid_eqb miss (id q) = true) by (now apply qid_eqb_true).
  unfold compute_priority.
  rewrite (_last_seen_snoc history pass (id q) Hqp),
          (_last_seen_snoc history miss (id q) Hqm).
  rewrite !attempts_sum_matching, !incorrect_sum_matching, !matching_snoc.
  rewrite Hqp, Hqm, !attempts_total_snoc, !incorrect_total_snoc.
  cbv zeta. simpl attempts. simpl correct.
  set (a := attempts_total (matching history (id q))).
  set (i := incorrect_total (matching history (id q))).
  assert (Hi : (0 <= i)%Z) by apply incorrect_total_nonneg.
  assert (Hm : miss_factor (a + tries) (i + 0)
               <= miss_factor (a + tries) (i + 1))
    by (apply miss_factor_mono; lia).
  assert (Hm1 : 1 <= miss_factor (a + tries) (i + 0))
    by (apply miss_factor_ge_1; lia).
  pose proof (tricky_bonus_nonneg q) as Hb.
  assert (Hgen : forall last,
            0 <= seconds last -> timestamp last <= now ->
            (1 + tricky_bonus q + slow_penalty last)
            * miss_factor (a + tries) (i + 0)
            * (1 - decay (hours_since now last))
            <= (1 + tricky_bonus q + slow_penalty last)
               * miss_factor (a + tries) (i + 1)
               * (1 - decay (hours_since now last))).
  { intros last Hs Ht.
    pose proof (slow_penalty_nonneg last Hs) as Hp.
    assert (Hd : decay (hours_since now last) <= 1).
    { apply decay_le_1. unfold hours_since.
      apply Rmult_le_pos; [lra|]. left. apply Rinv_0_lt_compat. lra. }
    apply Rmult_le_compat_r; [lra|].
    apply Rmult_le_compat_l; lra. }
  destruct (_last_seen history (id q)) as [last|] eqn:El.
  - destruct (_last_seen_Some _ _ _ El) as [Hin _].
    apply In_matching in Hin. destruct Hin as [Hin Hq].
    destruct (Hold last Hin Hq) as [Hs Ht].
    simpl timestamp.
    destruct (Rlt_dec (timestamp last) time).
    + apply (Hgen pass); assumption.
    + apply Hgen; assumption.
  - apply (Hgen pass); assumption.
Qed.

(** X23.  Recording an answer to one question does not move the others:
    when the log loaded as [old] and [record_result] writes an outcome of a
    question other than [q], the log loads again and the score of [q] over
    the reloaded history is its score over [old], at every time. *)
Theorem record_result_other_question {rt : Runtime} (fs : FS) (q : Question)
                                     (qid : string) (tries : Z) (secs : R)
                                     (right : bool) (path : Path) (now : R)
                                     (clock : nat -> R) (old : list History)
                                     (later : R) :
  reads_back (entry qid tries secs right now) ->
  whole_lines fs path ->
  load_history fs path clock = Ok old ->
  qid <> id q ->
  exists history,
    load_history (record_result fs qid tries secs right path now) path clock
    = Ok history /\
    compute_priority q history later = compute_priority q old later.
Proof.
  intros Hrt Hwhole Hold Hne.
  exists (old ++ [mkHistory (JStr qid) tries secs right now])%list. split.
  - rewrite (load_history_record_result _ _ _ _ _ _ _ _ Hrt Hwhole), Hold.
    reflexivity.
  - apply compute_priority_matching. rewrite matching_snoc.
    destruct (qid_eqb _ (id q)) eqn:E; [|apply app_nil_r].
    apply qid_eqb_true in E. simpl in E. injection E as E. now destruct Hne.
Qed.

Lemma compute_priority_history_order_witness :
  compute_priority q2 [orphan; missed_q2] 3600
  = compute_priority q2 [missed_q2; orphan] 3600.
Proof.
  apply (compute_priority_history_order q2 [orphan; missed_q2]
           [missed_q2; orphan] 3600).
  - apply perm_swap.
  - intros h h' [<- | [<- | []]] [<- | [<- | []]] Hq Hq' _;
      try discriminate Hq; try discriminate Hq'. reflexivity.
Defined.

Lemma compute_priority_miss_above_pass_witness :
  compute_priority q2 ([orphan] ++ [mkHistory (JStr (id q2)) 2 4 true 0]) 3600
  <= compute_priority q2 ([orphan] ++ [mkHistory (JStr (id q2)) 2 4 false 0]) 3600.
Proof.
  apply (compute_priority_miss_above_pass q2 [orphan] 2 4 0 3600).
  - lra.
  - lra.
  - intros h [<- | []] Hq. discriminate Hq.
Defined.

Lemma record_result_other_question_witness :
  exists history,
    @load_history example_runtime
      (@record_result example_runtime bare_fs "q1" 2 4 true PROGRESS_LOG 100)
      PROGRESS_LOG (fun _ => 100) = Ok history /\
    compute_priority q2 history 3600
    = compute_priority q2 [mkHistory (JStr "q1") 1 0 false 100] 3600.
Proof.
  apply (@record_result_other_question example_runtime bare_fs q2 "q1" 2 4 true
           PROGRESS_LOG 100 (fun _ => 100)
           [mkHistory (JStr "q1") 1 0 false 100] 3600).
  - repeat split.
  - intros text E. injection E as <-. reflexivity.
  - reflexivity.
  - discriminate.
Defined.
